(** * emotions_agent.py: the frame loop of the facial emotion streamer

    A shallow embedding of [src/emotions_agent.py].  The camera, the
    DeepFace model and OpenCV are outside the script; the embedding keeps
    their calls visible:

    - an image is the term of the OpenCV calls that built it
      ([Captured], [Flip], [Rectangle], [PutText]);
    - a run of the generator is driven by a script with one entry per
      loop iteration (what [cap.read()] gave, what [DeepFace.analyze]
      would give) and produces one log of calls per iteration;
    - Python exceptions are values of [PyExn], carried by [result]. *)

From Stdlib Require Import ZArith QArith String Ascii Strings.Byte List Lia.
From stdpp Require Import base option list strings gmap pretty.
Import ListNotations.

Local Open Scope string_scope.
Local Open Scope list_scope.
Local Open Scope Z_scope.

(** ** Python values and exceptions *)

(** The values a face dictionary of DeepFace holds under the keys the
    script reads: ['region'] is a dictionary of integers,
    ['dominant_emotion'] a string; any key may be missing or [None]. *)
Inductive PyVal : Type :=
| PyNone
| PyInt (n : Z)
| PyStr (s : string)
| PyDict (d : gmap string Z).

(** [Dict[str, Any]] *)
Abbreviation FaceData := (gmap string PyVal).

Inductive PyExn : Type :=
| KeyError (key : string)
| TypeError
| AttributeError
| ZeroDivisionError.

Inductive result (A : Type) : Type :=
| Ok (a : A)
| Raise (e : PyExn).
Arguments Ok {A} a.
Arguments Raise {A} e.

Definition bind {A B : Type} (r : result A) (k : A -> result B) : result B :=
  match r with
  | Ok a => k a
  | Raise e => Raise e
  end.

Notation "'try!' x ':=' r 'in' k" := (bind r (fun x => k))
  (at level 10, x name, r at level 100, k at level 200).

(** [d.get(key)]: [None] when the key is missing. *)
Definition dict_get (d : FaceData) (key : string) : PyVal :=
  default PyNone (d !! key).

(** Python truth value: [None], [0], [''] and [{}] are false. *)
Definition truthy (v : PyVal) : bool :=
  match v with
  | PyNone => false
  | PyInt n => negb (n =? 0)
  | PyStr s => negb (String.eqb s "")
  | PyDict d => negb (bool_decide (d = ∅))
  end.

(** [v[key]] *)
Definition subscript (v : PyVal) (key : string) : result Z :=
  match v with
  | PyDict d =>
      match d !! key with
      | Some n => Ok n
      | None => Raise (KeyError key)
      end
  | _ => Raise TypeError
  end.

(** ASCII case mapping; bytes outside [a-z] / [A-Z] are left alone. *)
Definition ascii_upper (c : ascii) : ascii :=
  let n := N_of_ascii c in
  if ((97 <=? n) && (n <=? 122))%N then ascii_of_N (n - 32) else c.

Definition ascii_lower (c : ascii) : ascii :=
  let n := N_of_ascii c in
  if ((65 <=? n) && (n <=? 90))%N then ascii_of_N (n + 32) else c.

Fixpoint str_lower (s : string) : string :=
  match s with
  | EmptyString => EmptyString
  | String c rest => String (ascii_lower c) (str_lower rest)
  end.

(** [str.capitalize()] on ASCII text: first character upper case, the
    rest lower case. *)
Definition str_capitalize (s : string) : string :=
  match s with
  | EmptyString => EmptyString
  | String c rest => String (ascii_upper c) (str_lower rest)
  end.

(** [v.capitalize()]: only strings have the method. *)
Definition capitalize (v : PyVal) : result string :=
  match v with
  | PyStr s => Ok (str_capitalize s)
  | _ => Raise AttributeError
  end.

(** ** Images as terms of OpenCV calls *)

Definition Point : Type := Z * Z.
Definition Color : Type := Z * Z * Z.

Inductive Font : Type := FONT_HERSHEY_SIMPLEX.

(** [Captured raw] is the array [cap.read()] returned, [raw] naming its
    pixels; the model never looks inside.  The drawing calls mutate the
    frame in place: the frame after the call is the term around the frame
    before it. *)
Inductive Image : Type :=
| Captured (raw : nat)
| Flip (src : Image) (flipCode : Z)
| Rectangle (img : Image) (pt1 pt2 : Point) (color : Color) (thickness : Z)
| PutText (img : Image) (text : string) (org : Point) (font : Font)
    (fontScale : Q) (color : Color) (thickness : Z).

(** ** Configuration *)

Record Config : Type := {
  FRAME_SKIP : Z;
  DETECTOR_BACKEND : string;
  CAMERA_INDEX : Z
}.

(** The constants of the script (lines 16-18). *)
Definition script_config : Config :=
  {| FRAME_SKIP := 10; DETECTOR_BACKEND := "opencv"; CAMERA_INDEX := 1 |}.

(** ** The overlay (lines 83-104) *)

Section Overlay.

(** [cv2.getTextSize(text, font, font_scale, thickness)] gives
    [((text_w, text_h), baseline)]. *)
Variable getTextSize : string -> Font -> Q -> Z -> (Z * Z) * Z.

(** The body of [for face_data in last_detected_faces].  OpenCV takes
    the coordinates as C [int]s and raises on others: the drawing calls
    are written here for coordinates it accepts, and [paintable] below
    says which those are. *)
Definition draw_face (frame : Image) (face_data : FaceData) : result Image :=
  let region := dict_get face_data "region" in
  let emotion_raw := dict_get face_data "dominant_emotion" in
  if negb (truthy region) || negb (truthy emotion_raw) then Ok frame
  else
    try! x := subscript region "x" in
    try! y := subscript region "y" in
    try! w := subscript region "w" in
    try! h := subscript region "h" in
    try! emotion := capitalize emotion_raw in
    let frame := Rectangle frame (x, y) (x + w, y + h) (0, 255, 0) 2 in
    let text := "Emotion: " +:+ emotion in
    let font := FONT_HERSHEY_SIMPLEX in
    let font_scale := (7 # 10)%Q in
    let thickness := 2 in
    let '((text_w, text_h), _) := getTextSize text font font_scale thickness in
    let frame :=
      Rectangle frame (x, y - text_h - 10) (x + text_w, y - 5) (0, 255, 0) (-1) in
    Ok (PutText frame text (x, y - 10) font font_scale (0, 0, 0) thickness).

Fixpoint for_faces (frame : Image) (faces : list FaceData) : result Image :=
  match faces with
  | [] => Ok frame
  | face_data :: rest =>
      try! frame' := draw_face frame face_data in
      for_faces frame' rest
  end.

(** [if last_detected_faces: for face_data in last_detected_faces: ...] *)
Definition draw_overlay (frame : Image) (last_detected_faces : list FaceData)
  : result Image :=
  match last_detected_faces with
  | [] => Ok frame
  | _ :: _ => for_faces frame last_detected_faces
  end.

End Overlay.

(** A face dictionary as DeepFace returns it. *)
Definition face (x y w h : Z) (emotion : string) : FaceData :=
  {[ "region" := PyDict {[ "x" := x; "y" := y; "w" := w; "h" := h ]};
     "dominant_emotion" := PyStr emotion ]}.

(** A text-size function for the examples: 12 pixels a character, 18
    high, baseline 6. *)
Definition toy_text_size (text : string) (_ : Font) (_ : Q) (_ : Z) : (Z * Z) * Z :=
  ((12 * Z.of_nat (String.length text), 18), 6).

(** ** The camera (lines 22-35) *)

(** An opened [cv2.VideoCapture]. *)
Inductive VideoCapture : Type := Capture (index : Z).

(** What one attempt to open the device does. *)
Inductive OpenOutcome : Type :=
| Opened
| NotOpened
| OpenRaised (msg : string).

(** What [DeepFace.analyze] does when it is called: a list of face
    dictionaries, or an [Exception]. *)
Inductive InferOutcome : Type :=
| Detected (faces : list FaceData)
| AnalyzeRaised (msg : string).

(** The calls the script makes to the outside, in order; [CapRead] and
    [Analyze] carry what the call gave back. *)
Inductive Event : Type :=
| Print (s : string)
| VideoCaptureCall (index : Z)
| CapRead (frame : option nat)
| Sleep (secs : Z)
| Analyze (img_path : Image) (detector_backend : string) (gave : InferOutcome)
| Imencode (ext : string) (img : Image)
| Yield (part : list byte)
| AppRun (host : string) (port : Z).

(** One entry per loop iteration: [ReadFails o] when [cap.read()] gives
    [ret = False], with the outcome [o] of the reopen that follows;
    [ReadGives raw inf] when it gives the frame [raw], with what
    [DeepFace.analyze] does if the iteration calls it. *)
Inductive IterInput : Type :=
| ReadFails (reopen : OpenOutcome)
| ReadGives (raw : nat) (inf : InferOutcome).

(** The global [cap] and the two locals of [generate_frames]. *)
Record GenState : Type := {
  cap : option VideoCapture;
  frame_count : Z;
  last_detected_faces : list FaceData
}.

(** How the generator stands after an iteration: suspended or looping
    ([Running]), ended by an uncaught exception ([Died]), or ended by
    [return] ([Returned]). *)
Inductive Outcome : Type :=
| Running (st : GenState)
| Died (e : PyExn)
| Returned.

Definition CR : ascii := "013"%char.
Definition LF : ascii := "010"%char.

(** The text of [\r\n] in a Python literal. *)
Definition rn : string := String CR (String LF EmptyString).

Section Script.

Variable cfg : Config.
(** [cv2.imencode(ext, img)]: [None] for [ret = False], otherwise the
    bytes of the buffer. *)
Variable imencode : string -> Image -> option (list byte).
Variable getTextSize : string -> Font -> Q -> Z -> (Z * Z) * Z.

(** [initialize_camera]: the new value of the global [cap] and the
    calls made.  [attempt] is the [try] block: the capture, or the text
    of the exception that [except Exception as e] catches. *)
Definition initialize_camera (o : OpenOutcome) : option VideoCapture * list Event :=
  let attempt : string + VideoCapture :=
    match o with
    | Opened => inr (Capture (CAMERA_INDEX cfg))
    | NotOpened =>
        inl ("Cannot open webcam at index " +:+ pretty (CAMERA_INDEX cfg) +:+ ".")
    | OpenRaised msg => inl msg
    end in
  match attempt with
  | inr c =>
      (Some c,
       [VideoCaptureCall (CAMERA_INDEX cfg); Print "Camera initialized successfully."])
  | inl e =>
      (None,
       [VideoCaptureCall (CAMERA_INDEX cfg);
        Print ("Error initializing camera: " +:+ e);
        Print "Tip: Try changing CAMERA_INDEX to 0, 1, or 2."])
  end.

(** The yielded part (lines 118-119). *)
Definition multipart (frame_bytes : list byte) : list byte :=
  (list_byte_of_string (("--frame" +:+ rn)
                          +:+ ("Content-Type: image/jpeg" +:+ rn +:+ rn))
     ++ frame_bytes)
    ++ list_byte_of_string rn.

(** Lines 66-80: the detection set to draw and the calls made. *)
Definition throttle (frame : Image) (st : GenState) (inf : InferOutcome)
  : list FaceData * list Event :=
  if frame_count st mod FRAME_SKIP cfg =? 0 then
    (match inf with
     | Detected detected_faces => detected_faces
     | AnalyzeRaised _ => []
     end,
     [Analyze frame (DETECTOR_BACKEND cfg) inf])
  else (last_detected_faces st, []).

(** Lines 108-119: encode and yield. *)
Definition emit (frame : Image) : list Event :=
  match imencode ".jpg" frame with
  | None => [Imencode ".jpg" frame]
  | Some frame_bytes => [Imencode ".jpg" frame; Yield (multipart frame_bytes)]
  end.

(** One pass through the body of [while True] (lines 54-119).  With
    [cap] at [None], [cap.read()] raises [AttributeError]; with
    [FRAME_SKIP] at zero, line 67 raises [ZeroDivisionError]; an
    exception of the overlay ends the generator as well. *)
Definition loop_iteration (st : GenState) (inp : IterInput) : list Event * Outcome :=
  match cap st with
  | None => ([], Died AttributeError)
  | Some _ =>
      match inp with
      | ReadFails o =>
          let '(cap', evs) := initialize_camera o in
          ([CapRead None;
            Print "Error: Failed to grab frame. Re-initializing camera..."]
             ++ evs ++ [Sleep 1],
           Running {| cap := cap';
                      frame_count := frame_count st;
                      last_detected_faces := last_detected_faces st |})
      | ReadGives raw inf =>
          let frame := Flip (Captured raw) 1 in
          if FRAME_SKIP cfg =? 0 then ([CapRead (Some raw)], Died ZeroDivisionError)
          else
            let '(faces, evs) := throttle frame st inf in
            match draw_overlay getTextSize frame faces with
            | Raise e => (CapRead (Some raw) :: evs, Died e)
            | Ok frame' =>
                (CapRead (Some raw) :: evs ++ emit frame',
                 Running {| cap := cap st;
                            frame_count := frame_count st + 1;
                            last_detected_faces := faces |})
            end
      end
  end.

(** The loop over a script: one log per iteration that ran. *)
Fixpoint run_loop (st : GenState) (script : list IterInput)
  : list (list Event) * Outcome :=
  match script with
  | [] => ([], Running st)
  | inp :: rest =>
      let '(evs, out) := loop_iteration st inp in
      match out with
      | Running st' =>
          let '(logs, out') := run_loop st' rest in (evs :: logs, out')
      | _ => ([evs], out)
      end
  end.

(** The locals as line 50-51 set them. *)
Definition start (c : VideoCapture) : GenState :=
  {| cap := Some c; frame_count := 0; last_detected_faces := [] |}.

(** [generate_frames]: the calls before the loop, then the loop.  [cap0]
    is the global [cap] when the generator starts, [o] the outcome of the
    open attempted when it is [None]. *)
Definition generate_frames (cap0 : option VideoCapture) (o : OpenOutcome)
    (script : list IterInput) : list Event * (list (list Event) * Outcome) :=
  match cap0 with
  | Some c => ([], run_loop (start c) script)
  | None =>
      let '(cap', evs) := initialize_camera o in
      (Print "Camera not initialized. Attempting to initialize..." :: evs,
       match cap' with
       | None => ([], Returned)
       | Some c => run_loop (start c) script
       end)
  end.

(** [main]: the calls made and the global [cap] it leaves. *)
Definition main (o : OpenOutcome) : list Event * option VideoCapture :=
  let '(cap', evs) := initialize_camera o in
  match cap' with
  | None =>
      (Print "Initializing camera..." :: evs
         ++ [Print "Failed to initialize camera. Exiting."],
       cap')
  | Some _ =>
      (Print "Initializing camera..." :: evs
         ++ [Print "Starting Flask server...";
             Print "Open http://127.0.0.1:5001 in your browser.";
             AppRun "0.0.0.0" 5001],
       cap')
  end.

End Script.

(** ** Reading a run *)

Definition is_analyze (e : Event) : bool :=
  match e with Analyze _ _ _ => true | _ => false end.

Definition is_yield (e : Event) : bool :=
  match e with Yield _ => true | _ => false end.

(** The iterations that got a frame from the camera. *)
Definition got_frame (evs : list Event) : bool :=
  match evs with CapRead (Some _) :: _ => true | _ => false end.

Definition processed (logs : list (list Event)) : list (list Event) :=
  List.filter got_frame logs.

(** The images handed to [DeepFace.analyze], to [cv2.imencode], and the
    parts yielded. *)
Definition analyzed (evs : list Event) : list Image :=
  omap (fun e => match e with Analyze img _ _ => Some img | _ => None end) evs.

Definition rendered (evs : list Event) : list Image :=
  omap (fun e => match e with Imencode _ img => Some img | _ => None end) evs.

Definition yielded (evs : list Event) : list (list byte) :=
  omap (fun e => match e with Yield b => Some b | _ => None end) evs.

(** A toy encoder for the examples: it fails on frames without overlay
    that came from the frame numbered 13, and otherwise writes the
    number of drawing calls. *)
Fixpoint overlay_depth (img : Image) : nat :=
  match img with
  | Captured _ => 0
  | Flip src _ => overlay_depth src
  | Rectangle img _ _ _ _ => S (overlay_depth img)
  | PutText img _ _ _ _ _ _ => S (overlay_depth img)
  end.

Fixpoint source_of (img : Image) : nat :=
  match img with
  | Captured raw => raw
  | Flip src _ => source_of src
  | Rectangle img _ _ _ _ => source_of img
  | PutText img _ _ _ _ _ _ => source_of img
  end.

Definition toy_imencode (ext : string) (img : Image) : option (list byte) :=
  if (source_of img =? 13)%nat then None
  else Some (list_byte_of_string (pretty (overlay_depth img))).

(** The frames [cap.read()] delivered. *)
Definition reads (evs : list Event) : list nat :=
  omap (fun e => match e with CapRead (Some raw) => Some raw | _ => None end) evs.

(** What the calls to [DeepFace.analyze] gave, in order. *)
Definition attempts (evs : list Event) : list InferOutcome :=
  omap (fun e => match e with Analyze _ _ r => Some r | _ => None end) evs.

(** The application served, as [(host, port)]. *)
Definition served (evs : list Event) : list (string * Z) :=
  omap (fun e => match e with AppRun h p => Some (h, p) | _ => None end) evs.

(** ** The specification's vocabulary *)

(** The Detection Set of an inference attempt: the faces found, and the
    empty set for an attempt that failed. *)
Definition as_detection_set (r : InferOutcome) : list FaceData :=
  match r with
  | Detected faces => faces
  | AnalyzeRaised _ => []
  end.

(** The Detection Set of the most recent inference attempt of a run;
    empty before the first attempt. *)
Definition most_recent_attempt (logs : list (list Event)) : list FaceData :=
  match last (attempts (concat logs)) with
  | Some r => as_detection_set r
  | None => []
  end.

(** The inference calls the specification asks for over a sequence of
    frames read, one list per frame: the mirrored frame when the
    zero-based index [i] of the frame is a multiple of [n], none
    otherwise. *)
Fixpoint due_calls (n i : Z) (frames : list (nat * InferOutcome))
  : list (list Image) :=
  match frames with
  | [] => []
  | (raw, _) :: rest =>
      (if i mod n =? 0 then [Flip (Captured raw) 1] else [])
        :: due_calls n (i + 1) rest
  end.

(** A Detection lacks a region (or an emotion label) when the key is
    missing or holds a false value: [None], an empty dictionary, an
    empty string. *)
Definition lacks (key : string) (d : FaceData) : Prop :=
  truthy (dict_get d key) = false.

(** A Detection with both: a region of four integers and a non-empty
    label. *)
Definition complete (d : FaceData) : Prop :=
  exists (region : gmap string Z) x y w h emotion,
    d !! "region" = Some (PyDict region)
    /\ region !! "x" = Some x /\ region !! "y" = Some y
    /\ region !! "w" = Some w /\ region !! "h" = Some h
    /\ d !! "dominant_emotion" = Some (PyStr emotion)
    /\ emotion <> "".

(** An integer that fits a C [int], as [cv2.rectangle] and [cv2.putText]
    need their coordinates. *)
Definition c_int (z : Z) : bool := (-2147483648 <=? z) && (z <=? 2147483647).

(** Text of ASCII characters only, where [str_capitalize] is Python's
    [str.capitalize]. *)
Definition ascii_text (s : string) : bool :=
  forallb (fun c => (N_of_ascii c <? 128)%N) (list_ascii_of_string s).

(** A Detection whose drawing calls OpenCV accepts: when it has a region
    of four integers and a non-empty string label, the label is ASCII
    and every coordinate handed to [cv2.rectangle] and [cv2.putText] on
    lines 95-104 fits a C [int].  Any other Detection makes no drawing
    call. *)
Definition paintable (getTextSize : string -> Font -> Q -> Z -> (Z * Z) * Z)
    (d : FaceData) : bool :=
  match d !! "region", d !! "dominant_emotion" with
  | Some (PyDict region), Some (PyStr emotion) =>
      match region !! "x", region !! "y", region !! "w", region !! "h" with
      | Some x, Some y, Some w, Some h =>
          if String.eqb emotion "" then true
          else
            let text := "Emotion: " +:+ str_capitalize emotion in
            let '((text_w, text_h), _) :=
              getTextSize text FONT_HERSHEY_SIMPLEX (7 # 10)%Q 2 in
            ascii_text emotion
            && forallb c_int
                 [x; y; x + w; y + h; y - text_h - 10; x + text_w; y - 5; y - 10]
      | _, _, _, _ => true
      end
  | _, _ => true
  end.

(** The frame below the drawing calls. *)
Fixpoint under_overlay (img : Image) : Image :=
  match img with
  | Rectangle img _ _ _ _ => under_overlay img
  | PutText img _ _ _ _ _ _ => under_overlay img
  | _ => img
  end.

(** The drawing calls on a frame, innermost (first made) first. *)
Inductive Drawing : Type :=
| DrawRectangle (pt1 pt2 : Point) (color : Color) (thickness : Z)
| DrawText (text : string) (org : Point) (font : Font) (fontScale : Q)
    (color : Color) (thickness : Z).

Fixpoint drawings (img : Image) : list Drawing :=
  match img with
  | Rectangle img pt1 pt2 color thickness =>
      drawings img ++ [DrawRectangle pt1 pt2 color thickness]
  | PutText img text org font fontScale color thickness =>
      drawings img ++ [DrawText text org font fontScale color thickness]
  | _ => []
  end.

Definition CRLF : list byte := [x0d; x0a].

(** One part of the stream as section 6 of the specification spells it:
    marker, CRLF, header, CRLF, CRLF, image bytes, CRLF. *)
Definition stream_part (jpeg : list byte) : list byte :=
  list_byte_of_string "--frame" ++ CRLF
    ++ list_byte_of_string "Content-Type: image/jpeg" ++ CRLF ++ CRLF
    ++ jpeg ++ CRLF.

(** What the specification has the Overlay Renderer draw for one
    Detection: the box, the filled label background above it, the label;
    nothing for a Detection without a region or without a label. *)
Definition face_drawings (getTextSize : string -> Font -> Q -> Z -> (Z * Z) * Z)
    (d : FaceData) : list Drawing :=
  match d !! "region", d !! "dominant_emotion" with
  | Some (PyDict region), Some (PyStr emotion) =>
      match region !! "x", region !! "y", region !! "w", region !! "h" with
      | Some x, Some y, Some w, Some h =>
          if String.eqb emotion "" then []
          else
            let text := "Emotion: " +:+ str_capitalize emotion in
            let '((text_w, text_h), _) :=
              getTextSize text FONT_HERSHEY_SIMPLEX (7 # 10)%Q 2 in
            [DrawRectangle (x, y) (x + w, y + h) (0, 255, 0) 2;
             DrawRectangle (x, y - text_h - 10) (x + text_w, y - 5) (0, 255, 0) (-1);
             DrawText text (x, y - 10) FONT_HERSHEY_SIMPLEX (7 # 10)%Q (0, 0, 0) 2]
      | _, _, _, _ => []
      end
  | _, _ => []
  end.

(** An iteration that got a frame hands the model the mirror of that
    frame, and the encoder drawings over the mirror of that frame; any
    other iteration hands them nothing. *)
Definition mirrored (evs : list Event) : Prop :=
  match evs with
  | CapRead (Some raw) :: rest =>
      Forall (fun img => img = Flip (Captured raw) 1) (analyzed rest)
      /\ Forall (fun img => under_overlay img = Flip (Captured raw) 1) (rendered rest)
  | _ => analyzed evs = [] /\ rendered evs = []
  end.

(** The parts yielded are the frames handed to the encoder that it could
    encode, each wrapped as a stream part, in order. *)
Definition framed (imencode : string -> Image -> option (list byte))
    (evs : list Event) : Prop :=
  yielded evs = map stream_part (omap (imencode ".jpg") (rendered evs)).

(** ** Inputs for the worked examples *)

(** The script's configuration with inference on every other frame. *)
Definition every_other : Config :=
  {| FRAME_SKIP := 2; DETECTOR_BACKEND := "opencv"; CAMERA_INDEX := 1 |}.

Definition happy : FaceData := face 10 10 50 50 "happy".

(** Detections as they come when a key is missing or empty. *)
Definition no_region : FaceData := {[ "dominant_emotion" := PyStr "sad" ]}.
Definition empty_label : FaceData :=
  {[ "region" := PyDict {[ "x" := 1; "y" := 2; "w" := 3; "h" := 4 ]};
     "dominant_emotion" := PyStr "" ]}.

(** Three frames, a dropped read with a successful reopen, two more
    frames; the model fails on the third call. *)
Definition demo_script : list IterInput :=
  [ReadGives 0 (Detected [happy]);
   ReadGives 1 (Detected []);
   ReadGives 2 (Detected [no_region; happy]);
   ReadFails Opened;
   ReadGives 3 (Detected []);
   ReadGives 4 (AnalyzeRaised "model failed")].

(** A camera that is unplugged: the read fails and so does the reopen. *)
Definition unplugged_script : list IterInput :=
  [ReadGives 0 (Detected [happy]); ReadFails NotOpened; ReadGives 1 (Detected [])].

(** ** The video route (lines 131-140) *)

(** What [video_feed] builds its Flask [Response] from: the generator,
    here the run it makes over a script, and the MIME type. *)
Record Response : Type := {
  response : list Event * (list (list Event) * Outcome);
  mimetype : string
}.

Definition video_feed (cfg : Config)
    (imencode : string -> Image -> option (list byte))
    (getTextSize : string -> Font -> Q -> Z -> (Z * Z) * Z)
    (cap0 : option VideoCapture) (o : OpenOutcome) (script : list IterInput)
  : Response :=
  {| response := generate_frames cfg imencode getTextSize cap0 o script;
     mimetype := "multipart/x-mixed-replace; boundary=frame" |}.

(** ** More vocabulary for reading runs *)

(** The [boundary] parameter of a multipart MIME type: the text after
    the first [boundary=]. *)
Fixpoint boundary_of (mime : string) : option string :=
  if String.prefix "boundary=" mime
  then Some (String.substring 9 (String.length mime - 9) mime)
  else
    match mime with
    | EmptyString => None
    | String _ rest => boundary_of rest
    end.

(** The device indices opened and the pauses made. *)
Definition opens (evs : list Event) : list Z :=
  omap (fun e => match e with VideoCaptureCall i => Some i | _ => None end) evs.

Definition sleeps (evs : list Event) : list Z :=
  omap (fun e => match e with Sleep s => Some s | _ => None end) evs.

(** A Detection the overlay can take: one it skips or one it draws. *)
Definition drawable (d : FaceData) : Prop :=
  lacks "region" d \/ lacks "dominant_emotion" d \/ complete d.

(** A script entry that cannot end the generator: a reopen that
    succeeds, a model failure, or a Detection Set the overlay can take
    and OpenCV can paint. *)
Definition benign (getTextSize : string -> Font -> Q -> Z -> (Z * Z) * Z)
    (inp : IterInput) : Prop :=
  match inp with
  | ReadFails o => o = Opened
  | ReadGives _ (Detected faces) =>
      Forall (fun d => drawable d /\ paintable getTextSize d = true) faces
  | ReadGives _ (AnalyzeRaised _) => True
  end.

(** The first of the keys read on line 91 that a region does not have. *)
Definition first_missing (region : gmap string Z) : option string :=
  List.find (fun key => bool_decide (region !! key = None)) ["x"; "y"; "w"; "h"].

(** Two generator states with the same locals and the camera open in
    both or in neither. *)
Definition same_locals (st1 st2 : GenState) : Prop :=
  frame_count st1 = frame_count st2
  /\ last_detected_faces st1 = last_detected_faces st2
  /\ (cap st1 = None <-> cap st2 = None).

Definition same_outcome (out1 out2 : Outcome) : Prop :=
  match out1, out2 with
  | Running st1, Running st2 => same_locals st1 st2
  | Died e1, Died e2 => e1 = e2
  | Returned, Returned => True
  | _, _ => False
  end.

(** The number of inference calls that [k] frames cost at a skip
    interval of [n]: [k / n] rounded up. *)
Definition inference_budget (n k : Z) : Z := (k + n - 1) / n.

(** A configuration with the skip interval at zero, and a Detection
    whose region has lost its height. *)
Definition zero_skip : Config :=
  {| FRAME_SKIP := 0; DETECTOR_BACKEND := "opencv"; CAMERA_INDEX := 1 |}.

Definition no_height : FaceData :=
  {[ "region" := PyDict {[ "x" := 1; "y" := 2; "w" := 3 ]};
     "dominant_emotion" := PyStr "fear" ]}.

(** * Properties *)

Example capitalize_happy : str_capitalize "happy" = "Happy".
Proof. reflexivity. Qed.

Example capitalize_mixed : str_capitalize "sAD" = "Sad".
Proof. reflexivity. Qed.

Example draw_face_happy :
  draw_face toy_text_size (Flip (Captured 0) 1) (face 10 10 50 50 "happy")
  = Ok (PutText
          (Rectangle
             (Rectangle (Flip (Captured 0) 1) (10, 10) (60, 60) (0, 255, 0) 2)
             (10, -18) (178, 5) (0, 255, 0) (-1))
          "Emotion: Happy" (10, 0) FONT_HERSHEY_SIMPLEX (7 # 10)%Q (0, 0, 0) 2).
Proof. vm_compute. reflexivity. Qed.

(** ** The loop, iteration by iteration *)

Section LoopFacts.

Variable cfg : Config.
Variable imencode : string -> Image -> option (list byte).
Variable getTextSize : string -> Font -> Q -> Z -> (Z * Z) * Z.

Local Abbreviation step := (loop_iteration cfg imencode getTextSize).
Local Abbreviation run := (run_loop cfg imencode getTextSize).

Lemma analyzed_emit frame : analyzed (emit imencode frame) = [].
Proof. unfold emit. destruct (imencode _ _); reflexivity. Qed.

Lemma rendered_emit frame : rendered (emit imencode frame) = [frame].
Proof. unfold emit. destruct (imencode _ _); reflexivity. Qed.

Lemma analyzed_throttle frame st inf :
  analyzed (throttle cfg frame st inf).2
  = if frame_count st mod FRAME_SKIP cfg =? 0 then [frame] else [].
Proof. unfold throttle. destruct (_ =? 0); reflexivity. Qed.

Lemma rendered_throttle frame st inf : rendered (throttle cfg frame st inf).2 = [].
Proof. unfold throttle. destruct (_ =? 0); reflexivity. Qed.

Lemma yielded_throttle frame st inf : yielded (throttle cfg frame st inf).2 = [].
Proof. unfold throttle. destruct (_ =? 0); reflexivity. Qed.

(** What an iteration that got a frame did, and what any other did. *)
Lemma step_counts st inp :
  FRAME_SKIP cfg <> 0 ->
  let '(evs, out) := step st inp in
  (exists raw rest,
      evs = CapRead (Some raw) :: rest
      /\ analyzed rest
         = (if frame_count st mod FRAME_SKIP cfg =? 0
            then [Flip (Captured raw) 1] else [])
      /\ forall st', out = Running st' -> frame_count st' = frame_count st + 1)
  \/ (got_frame evs = false
      /\ forall st', out = Running st' -> frame_count st' = frame_count st).
Proof.
  intros HN. unfold loop_iteration.
  destruct (cap st) as [c|]; [|right; split; [reflexivity|discriminate]].
  destruct inp as [o|raw inf].
  - destruct (initialize_camera cfg o) as [cap' evs].
    right. split; [reflexivity|]. intros st' [= <-]. reflexivity.
  - apply Z.eqb_neq in HN. rewrite HN.
    pose proof (analyzed_throttle (Flip (Captured raw) 1) st inf) as Ha.
    destruct (throttle cfg _ st inf) as [faces evs]. simpl in Ha.
    destruct (draw_overlay _ _ _) as [frame'|e]; left; exists raw.
    + eexists. split; [reflexivity|]. split.
      * unfold analyzed in *. rewrite omap_app. fold (analyzed evs).
        fold (analyzed (emit imencode frame')).
        rewrite analyzed_emit, app_nil_r. exact Ha.
      * intros st' [= <-]. reflexivity.
    + eexists. split; [reflexivity|]. split; [exact Ha|discriminate].
Qed.

Lemma run_throttle script : forall st,
  FRAME_SKIP cfg <> 0 ->
  (forall (i : nat) evs,
      processed (run st script).1 !! i = Some evs ->
      exists raw rest,
        evs = CapRead (Some raw) :: rest
        /\ analyzed rest
           = (if (frame_count st + Z.of_nat i) mod FRAME_SKIP cfg =? 0
              then [Flip (Captured raw) 1] else []))
  /\ (forall st', (run st script).2 = Running st' ->
        frame_count st' = frame_count st + Z.of_nat (length (processed (run st script).1))).
Proof.
  induction script as [|inp rest IH]; intros st HN.
  - simpl. split; [intros i evs Hi; discriminate|].
    intros st' [= <-]. lia.
  - simpl. pose proof (step_counts st inp HN) as Hstep.
    destruct (step st inp) as [evs out].
    destruct out as [st1| |].
    + specialize (IH st1 HN). destruct (run st1 rest) as [logs out'].
      simpl in *. destruct IH as [IHa IHb].
      destruct Hstep as [(raw & tl & -> & Han & Hfc)|[Hno Hfc]];
        specialize (Hfc st1 eq_refl).
      * simpl. split.
        -- intros [|i] evs Hi; simpl in Hi.
           ++ injection Hi as <-. exists raw, tl. split; [reflexivity|].
              rewrite Z.add_0_r. exact Han.
           ++ destruct (IHa i evs Hi) as (raw' & tl' & -> & Han').
              exists raw', tl'. split; [reflexivity|].
              rewrite Hfc in Han'.
              replace (frame_count st + Z.of_nat (S i))
                with (frame_count st + 1 + Z.of_nat i) by lia.
              exact Han'.
        -- intros st' Hout. rewrite (IHb st' Hout), Hfc. lia.
      * rewrite Hno. rewrite Hfc in IHa, IHb. split; assumption.
    + simpl. split; [|discriminate].
      destruct Hstep as [(raw & tl & -> & Han & _)|[Hno _]].
      * simpl. intros [|i] evs Hi; simpl in Hi; [|discriminate].
        injection Hi as <-. exists raw, tl. split; [reflexivity|].
        rewrite Z.add_0_r. exact Han.
      * rewrite Hno. intros i log Hi; discriminate.
    + simpl. split; [|discriminate].
      destruct Hstep as [(raw & tl & -> & Han & _)|[Hno _]].
      * simpl. intros [|i] evs Hi; simpl in Hi; [|discriminate].
        injection Hi as <-. exists raw, tl. split; [reflexivity|].
        rewrite Z.add_0_r. exact Han.
      * rewrite Hno. intros i log Hi; discriminate.
Qed.

Lemma attempts_app l1 l2 : attempts (l1 ++ l2) = attempts l1 ++ attempts l2.
Proof. apply omap_app. Qed.

Lemma attempts_emit frame : attempts (emit imencode frame) = [].
Proof. unfold emit. destruct (imencode _ _); reflexivity. Qed.

Lemma attempts_initialize_camera o : attempts (initialize_camera cfg o).2 = [].
Proof. destruct o; reflexivity. Qed.

Lemma attempts_throttle frame st inf :
  attempts (throttle cfg frame st inf).2
  = if frame_count st mod FRAME_SKIP cfg =? 0 then [inf] else [].
Proof. unfold throttle. destruct (_ =? 0); reflexivity. Qed.

Lemma faces_throttle frame st inf :
  (throttle cfg frame st inf).1
  = if frame_count st mod FRAME_SKIP cfg =? 0
    then as_detection_set inf else last_detected_faces st.
Proof. unfold throttle. destruct (_ =? 0); [destruct inf|]; reflexivity. Qed.

(** The cache after an iteration: the whole result of the attempt made
    in it, or what it was when no attempt was made. *)
Lemma step_cache st inp :
  let '(evs, out) := step st inp in
  forall st', out = Running st' ->
    (attempts evs = [] /\ last_detected_faces st' = last_detected_faces st)
    \/ (exists r, attempts evs = [r] /\ last_detected_faces st' = as_detection_set r).
Proof.
  unfold loop_iteration.
  destruct (cap st) as [c|]; [|discriminate].
  destruct inp as [o|raw inf].
  - pose proof (attempts_initialize_camera o) as Hinit.
    destruct (initialize_camera cfg o) as [cap' evs]. simpl in Hinit.
    intros st' [= <-]. left. split; [|reflexivity].
    change (attempts (evs ++ [Sleep 1]) = []).
    rewrite attempts_app, Hinit. reflexivity.
  - destruct (FRAME_SKIP cfg =? 0); [discriminate|].
    pose proof (attempts_throttle (Flip (Captured raw) 1) st inf) as Ha.
    pose proof (faces_throttle (Flip (Captured raw) 1) st inf) as Hf.
    destruct (throttle cfg _ st inf) as [faces evs]. simpl in Ha, Hf.
    destruct (draw_overlay _ _ _) as [frame'|e]; [|discriminate].
    intros st' [= <-]. simpl.
    change (attempts (CapRead (Some raw) :: evs ++ emit imencode frame'))
      with (attempts (evs ++ emit imencode frame')).
    rewrite attempts_app, attempts_emit, app_nil_r, Ha, Hf.
    destruct (_ =? 0); [right; exists inf|left]; split; reflexivity.
Qed.

Lemma run_cache script : forall st st',
  (run st script).2 = Running st' ->
  last_detected_faces st'
  = match last (attempts (concat (run st script).1)) with
    | Some r => as_detection_set r
    | None => last_detected_faces st
    end.
Proof.
  induction script as [|inp rest IH]; intros st st'.
  - simpl. intros [= <-]. reflexivity.
  - simpl. pose proof (step_cache st inp) as Hstep.
    destruct (step st inp) as [evs out].
    destruct out as [st1| |]; [|discriminate|discriminate].
    specialize (Hstep st1 eq_refl). specialize (IH st1 st').
    destruct (run st1 rest) as [logs out']. simpl in *.
    intros Hout. rewrite (IH Hout), attempts_app, last_app.
    destruct (last (attempts (concat logs))); [reflexivity|].
    destruct Hstep as [[-> ->]|(r & -> & ->)]; reflexivity.
Qed.

Lemma rendered_app l1 l2 : rendered (l1 ++ l2) = rendered l1 ++ rendered l2.
Proof. apply omap_app. Qed.

Lemma yielded_app l1 l2 : yielded (l1 ++ l2) = yielded l1 ++ yielded l2.
Proof. apply omap_app. Qed.

Lemma analyzed_app l1 l2 : analyzed (l1 ++ l2) = analyzed l1 ++ analyzed l2.
Proof. apply omap_app. Qed.

Lemma multipart_stream_part frame_bytes : multipart frame_bytes = stream_part frame_bytes.
Proof. reflexivity. Qed.

Lemma yielded_emit frame :
  yielded (emit imencode frame)
  = match imencode ".jpg" frame with
    | Some jpeg => [stream_part jpeg]
    | None => []
    end.
Proof. unfold emit. destruct (imencode _ _); reflexivity. Qed.

(** An iteration that reads a frame, with the camera open and a skip
    interval other than zero. *)
Lemma step_frame st c raw inf :
  cap st = Some c -> FRAME_SKIP cfg <> 0 ->
  step st (ReadGives raw inf)
  = let frame := Flip (Captured raw) 1 in
    let due := frame_count st mod FRAME_SKIP cfg =? 0 in
    let faces := if due then as_detection_set inf else last_detected_faces st in
    let evs := if due then [Analyze frame (DETECTOR_BACKEND cfg) inf] else [] in
    match draw_overlay getTextSize frame faces with
    | Raise e => (CapRead (Some raw) :: evs, Died e)
    | Ok frame' =>
        (CapRead (Some raw) :: evs ++ emit imencode frame',
         Running {| cap := Some c;
                    frame_count := frame_count st + 1;
                    last_detected_faces := faces |})
    end.
Proof.
  intros Hcap HN. unfold loop_iteration, throttle. rewrite Hcap.
  apply Z.eqb_neq in HN. rewrite HN. cbv zeta.
  destruct (frame_count st mod FRAME_SKIP cfg =? 0); [destruct inf|]; reflexivity.
Qed.

Lemma reads_app l1 l2 : reads (l1 ++ l2) = reads l1 ++ reads l2.
Proof. apply omap_app. Qed.

Lemma reads_emit frame : reads (emit imencode frame) = [].
Proof. unfold emit. destruct (imencode _ _); reflexivity. Qed.

(** What an iteration on a frame reads, asks the model, and does to the
    counter. *)
Lemma step_frame_log st c raw inf :
  cap st = Some c -> FRAME_SKIP cfg <> 0 ->
  reads (step st (ReadGives raw inf)).1 = [raw]
  /\ analyzed (step st (ReadGives raw inf)).1
     = (if frame_count st mod FRAME_SKIP cfg =? 0 then [Flip (Captured raw) 1] else [])
  /\ match (step st (ReadGives raw inf)).2 with
     | Running st' => frame_count st' = frame_count st + 1 /\ cap st' = Some c
     | Died _ => True
     | Returned => False
     end.
Proof.
  intros Hcap HN. rewrite (step_frame st c raw inf Hcap HN). cbv zeta.
  destruct (frame_count st mod FRAME_SKIP cfg =? 0);
    destruct (draw_overlay _ _ _) as [frame'|e]; simpl;
    rewrite ?reads_emit, ?analyzed_emit; repeat split.
Qed.

Lemma step_no_frame_no_call st inp :
  got_frame (step st inp).1 = true \/ analyzed (step st inp).1 = [].
Proof.
  unfold loop_iteration. destruct (cap st) as [c|]; [|right; reflexivity].
  destruct inp as [o|raw inf].
  - right. destruct (initialize_camera cfg o) as [cap' evs] eqn:Hinit.
    unfold initialize_camera in Hinit.
    destruct o; injection Hinit as <- <-; reflexivity.
  - left. destruct (FRAME_SKIP cfg =? 0); [reflexivity|].
    destruct (throttle _ _ _ _). destruct (draw_overlay _ _ _); reflexivity.
Qed.

Lemma run_no_frame_no_call script : forall st,
  Forall (fun evs => got_frame evs = true \/ analyzed evs = []) (run st script).1.
Proof.
  induction script as [|inp rest IH]; intros st; simpl; [constructor|].
  pose proof (step_no_frame_no_call st inp) as Hstep.
  destruct (step st inp) as [evs out]. simpl in Hstep.
  destruct out as [st1| |]; [|constructor; [exact Hstep|constructor]..].
  specialize (IH st1). destruct (run st1 rest) as [logs out'].
  constructor; assumption.
Qed.

(** A script of frames only: every frame is read in its turn and the
    model is asked as [due_calls] says, until the script is through or
    an exception ends the generator. *)
Lemma run_frames frames : forall st c,
  cap st = Some c -> FRAME_SKIP cfg <> 0 ->
  map reads (run st (map (fun f => ReadGives f.1 f.2) frames)).1
  = take (length (run st (map (fun f => ReadGives f.1 f.2) frames)).1)
      (map (fun f => [f.1]) frames)
  /\ map analyzed (run st (map (fun f => ReadGives f.1 f.2) frames)).1
     = take (length (run st (map (fun f => ReadGives f.1 f.2) frames)).1)
         (due_calls (FRAME_SKIP cfg) (frame_count st) frames)
  /\ match (run st (map (fun f => ReadGives f.1 f.2) frames)).2 with
     | Running st' =>
         length (run st (map (fun f => ReadGives f.1 f.2) frames)).1 = length frames
         /\ frame_count st' = frame_count st + Z.of_nat (length frames)
     | Died _ =>
         (0 < length (run st (map (fun f => ReadGives f.1 f.2) frames)).1
          <= length frames)%nat
     | Returned => False
     end.
Proof.
  induction frames as [|[raw inf] frames IH]; intros st c Hcap HN.
  - simpl. repeat split. lia.
  - change (map (fun f => ReadGives f.1 f.2) ((raw, inf) :: frames))
      with (ReadGives raw inf :: map (fun f => ReadGives f.1 f.2) frames).
    cbn [run_loop].
    destruct (step_frame_log st c raw inf Hcap HN) as (Hreads & Hcalls & Hout).
    destruct (step st (ReadGives raw inf)) as [evs out]. simpl in Hreads, Hcalls, Hout.
    destruct out as [st1|e|]; [|simpl; rewrite Hreads, Hcalls; repeat split; lia|contradiction].
    destruct Hout as [Hfc Hcap1].
    destruct (IH st1 c Hcap1 HN) as (IHr & IHa & IHo).
    destruct (run st1 (map (fun f => ReadGives f.1 f.2) frames)) as [logs out'].
    simpl in IHr, IHa, IHo |- *.
    rewrite Hreads, Hcalls, IHr, IHa, Hfc. repeat split.
    destruct out' as [st'|e|]; [|lia|contradiction].
    destruct IHo as [Hlen Hcount]. split; [lia|]. rewrite Hcount, Hfc. lia.
Qed.

(** C1.  With a skip interval of at least one.  Over any script: the
    i-th iteration that got a frame (counting from zero) calls
    [DeepFace.analyze] once, on that frame, when i is a multiple of
    FRAME_SKIP, and not at all otherwise; an iteration that got no frame
    never calls it; and while the generator runs [frame_count] is the
    number of frames processed so far.  Over a sequence of successfully
    read frames: every frame is read in its turn, the calls to the model
    are those on the mirrored frames 0, N, 2N, ... and no others, up to
    the frame where the run stands; and unless an exception ended the
    generator all frames are processed and [frame_count] is their
    number. *)
Theorem inference_every_nth_frame c script frames :
  1 <= FRAME_SKIP cfg ->
  ((forall (i : nat) evs,
       processed (run (start c) script).1 !! i = Some evs ->
       exists raw rest,
         evs = CapRead (Some raw) :: rest
         /\ analyzed rest
            = (if Z.of_nat i mod FRAME_SKIP cfg =? 0
               then [Flip (Captured raw) 1] else []))
   /\ Forall (fun evs => got_frame evs = true \/ analyzed evs = [])
        (run (start c) script).1
   /\ (forall st, (run (start c) script).2 = Running st ->
         frame_count st = Z.of_nat (length (processed (run (start c) script).1))))
  /\ (map reads (run (start c) (map (fun f => ReadGives f.1 f.2) frames)).1
      = take (length (run (start c) (map (fun f => ReadGives f.1 f.2) frames)).1)
          (map (fun f => [f.1]) frames)
      /\ map analyzed (run (start c) (map (fun f => ReadGives f.1 f.2) frames)).1
         = take (length (run (start c) (map (fun f => ReadGives f.1 f.2) frames)).1)
             (due_calls (FRAME_SKIP cfg) 0 frames)
      /\ match (run (start c) (map (fun f => ReadGives f.1 f.2) frames)).2 with
         | Running st =>
             length (run (start c) (map (fun f => ReadGives f.1 f.2) frames)).1
             = length frames
             /\ frame_count st = Z.of_nat (length frames)
         | Died _ =>
             (0 < length (run (start c) (map (fun f => ReadGives f.1 f.2) frames)).1
              <= length frames)%nat
         | Returned => False
         end).
Proof.
  intros HN. split.
  - destruct (run_throttle script (start c)) as [Ha Hb]; [lia|].
    split; [exact Ha|]. split; [apply run_no_frame_no_call|].
    intros st Hout. rewrite (Hb st Hout). reflexivity.
  - exact (run_frames frames (start c) c eq_refl ltac:(lia)).
Qed.

(** C2.  After any run that leaves the generator running, the cache is
    the Detection Set of the most recent inference attempt (empty when
    that attempt failed, or when there was none yet).  In the next
    iteration, if a frame is read and no inference is made on it, the
    overlay drawn on the mirrored frame is that of this Detection Set
    and the cache stays as it is; and whatever the iteration does, the
    cache afterwards is the whole Detection Set of the attempt made in
    it, and is untouched when no attempt was made. *)
Theorem skipped_frames_reuse_latest_detections c pre inp st :
  1 <= FRAME_SKIP cfg ->
  (run (start c) pre).2 = Running st ->
  let logs := (run (start c) pre).1 in
  let '(evs, out) := step st inp in
  last_detected_faces st = most_recent_attempt logs
  /\ (forall raw rest,
        evs = CapRead (Some raw) :: rest -> analyzed rest = [] ->
        match draw_overlay getTextSize (Flip (Captured raw) 1)
                (most_recent_attempt logs) with
        | Ok img =>
            rendered evs = [img]
            /\ exists st', out = Running st'
                /\ last_detected_faces st' = most_recent_attempt logs
        | Raise e => rendered evs = [] /\ out = Died e
        end)
  /\ (forall st', out = Running st' ->
        last_detected_faces st'
        = match attempts evs with
          | [] => last_detected_faces st
          | r :: _ => as_detection_set r
          end).
Proof.
  intros HN Hrun logs.
  assert (Hcache : last_detected_faces st = most_recent_attempt logs).
  { rewrite (run_cache pre (start c) st Hrun). reflexivity. }
  pose proof (step_cache st inp) as Hstep.
  destruct (step st inp) as [evs out] eqn:Hit.
  split; [exact Hcache|]. split.
  - intros raw rest -> Hskip.
    unfold loop_iteration in Hit.
    destruct (cap st) as [c'|] eqn:Hcap; [|discriminate].
    destruct inp as [o|raw' inf].
    { destruct (initialize_camera cfg o); discriminate. }
    fold (step st (ReadGives raw' inf)) in Hit.
    assert (Hstep' := step_frame st c' raw' inf Hcap ltac:(lia)).
    unfold loop_iteration in Hstep'. rewrite Hcap in Hstep'.
    rewrite Hstep' in Hit. clear Hstep'. cbv zeta in Hit.
    destruct (frame_count st mod FRAME_SKIP cfg =? 0).
    + destruct (draw_overlay _ _ _); inversion Hit; subst; discriminate.
    + rewrite <- Hcache.
      destruct (draw_overlay _ _ _) as [img|e] eqn:Hdraw;
        inversion Hit; subst; clear Hit; rewrite Hdraw.
      * split.
        -- simpl. change (rendered (emit imencode img) = [img]).
           apply rendered_emit.
        -- eexists. split; reflexivity.
      * split; reflexivity.
  - intros st' Hout. destruct (Hstep st' Hout) as [[-> ->]|(r & -> & ->)];
      reflexivity.
Qed.


(** *** The overlay leaves the frame below it alone *)

Lemma draw_face_under frame d img :
  draw_face getTextSize frame d = Ok img -> under_overlay img = under_overlay frame.
Proof.
  unfold draw_face.
  destruct (negb _ || negb _); [intros [= <-]; reflexivity|].
  destruct (subscript _ "x"); [|discriminate].
  destruct (subscript _ "y"); [|discriminate].
  destruct (subscript _ "w"); [|discriminate].
  destruct (subscript _ "h"); [|discriminate].
  destruct (capitalize _); [|discriminate]. simpl.
  destruct (getTextSize _ _ _ _) as [[text_w text_h] baseline].
  intros [= <-]. reflexivity.
Qed.

Lemma for_faces_under faces : forall frame img,
  for_faces getTextSize frame faces = Ok img ->
  under_overlay img = under_overlay frame.
Proof.
  induction faces as [|d faces IH]; intros frame img; simpl.
  - intros [= <-]. reflexivity.
  - destruct (draw_face getTextSize frame d) as [frame'|e] eqn:Hd; [|discriminate].
    simpl. intros Hrest. rewrite (IH _ _ Hrest). exact (draw_face_under _ _ _ Hd).
Qed.

Lemma draw_overlay_for_faces frame faces :
  draw_overlay getTextSize frame faces = for_faces getTextSize frame faces.
Proof. destruct faces; reflexivity. Qed.

Lemma draw_overlay_under frame faces img :
  draw_overlay getTextSize frame faces = Ok img ->
  under_overlay img = under_overlay frame.
Proof. rewrite draw_overlay_for_faces. apply for_faces_under. Qed.

(** *** What one iteration hands to the model and to the encoder *)

Lemma quiet_initialize_camera o :
  analyzed (initialize_camera cfg o).2 = []
  /\ rendered (initialize_camera cfg o).2 = []
  /\ yielded (initialize_camera cfg o).2 = [].
Proof. destruct o; repeat split. Qed.

Lemma framed_emit frame : framed imencode (emit imencode frame).
Proof.
  unfold framed. rewrite yielded_emit, rendered_emit. simpl.
  destruct (imencode ".jpg" frame); reflexivity.
Qed.

Lemma step_framed st inp : framed imencode (step st inp).1.
Proof.
  unfold loop_iteration.
  destruct (cap st) as [c|]; [|reflexivity].
  destruct inp as [o|raw inf].
  - destruct (quiet_initialize_camera o) as (_ & Hr & Hy).
    destruct (initialize_camera cfg o) as [cap' evs]. simpl in *.
    unfold framed.
    change (yielded (evs ++ [Sleep 1])
            = map stream_part (omap (imencode ".jpg") (rendered (evs ++ [Sleep 1])))).
    rewrite yielded_app, rendered_app, Hr, Hy. reflexivity.
  - destruct (FRAME_SKIP cfg =? 0); [reflexivity|].
    pose proof (rendered_throttle (Flip (Captured raw) 1) st inf) as Hr.
    pose proof (yielded_throttle (Flip (Captured raw) 1) st inf) as Hy.
    destruct (throttle cfg _ st inf) as [faces evs]. simpl in Hr, Hy.
    destruct (draw_overlay _ _ _) as [frame'|e]; simpl; unfold framed.
    + change (yielded (evs ++ emit imencode frame')
              = map stream_part
                  (omap (imencode ".jpg") (rendered (evs ++ emit imencode frame')))).
      rewrite yielded_app, rendered_app, Hr, Hy. apply framed_emit.
    + change (yielded evs = map stream_part (omap (imencode ".jpg") (rendered evs))).
      rewrite Hr, Hy. reflexivity.
Qed.

Lemma step_mirrored st inp : mirrored (step st inp).1.
Proof.
  unfold loop_iteration.
  destruct (cap st) as [c|]; [|split; reflexivity].
  destruct inp as [o|raw inf].
  - destruct (quiet_initialize_camera o) as (Ha & Hr & _).
    destruct (initialize_camera cfg o) as [cap' evs]. simpl in *.
    split.
    + change (analyzed (evs ++ [Sleep 1]) = []). rewrite analyzed_app, Ha. reflexivity.
    + change (rendered (evs ++ [Sleep 1]) = []). rewrite rendered_app, Hr. reflexivity.
  - destruct (FRAME_SKIP cfg =? 0); [split; constructor|].
    pose proof (analyzed_throttle (Flip (Captured raw) 1) st inf) as Ha.
    pose proof (rendered_throttle (Flip (Captured raw) 1) st inf) as Hr.
    destruct (throttle cfg _ st inf) as [faces evs]. simpl in Ha, Hr.
    assert (Hall : Forall (fun img => img = Flip (Captured raw) 1) (analyzed evs)).
    { rewrite Ha. destruct (_ =? 0); repeat constructor. }
    destruct (draw_overlay _ _ _) as [frame'|e] eqn:Hdraw; simpl.
    + rewrite analyzed_app, rendered_app, analyzed_emit, rendered_emit, Hr, app_nil_r.
      split; [exact Hall|]. repeat constructor.
      exact (draw_overlay_under _ _ _ Hdraw).
    + rewrite Hr. split; [exact Hall|constructor].
Qed.

Lemma run_Forall (P : list Event -> Prop) :
  (forall st inp, P (step st inp).1) ->
  forall script st, Forall P (run st script).1.
Proof.
  intros Hstep. induction script as [|inp rest IH]; intros st; simpl.
  - constructor.
  - specialize (Hstep st inp). destruct (step st inp) as [evs out]. simpl in Hstep.
    destruct out as [st1| |]; [|repeat constructor; exact Hstep..].
    specialize (IH st1). destruct (run st1 rest) as [logs out'].
    constructor; assumption.
Qed.

Lemma framed_concat logs : Forall (framed imencode) logs -> framed imencode (concat logs).
Proof.
  unfold framed. induction 1 as [|evs logs Hevs _ IH]; simpl; [reflexivity|].
  rewrite yielded_app, rendered_app, omap_app, map_app, Hevs, IH. reflexivity.
Qed.

(** C10.  An iteration that reads a frame [raw] (the camera open, the
    skip interval not zero) flips it once, horizontally, before anything
    else: the model, when inference is due, is given the flip of [raw];
    the overlay is drawn on the flip of [raw] and leaves it below the
    drawings; what is handed to the encoder is that drawn frame, and
    what is yielded is its encoding.  Over any run, no iteration gives
    the model or the encoder anything but the flip of the frame it read,
    and an iteration that read no frame gives them nothing. *)
Theorem frames_mirrored_before_inference_and_overlay st c raw inf script :
  cap st = Some c ->
  FRAME_SKIP cfg <> 0 ->
  (let frame := Flip (Captured raw) 1 in
   let due := frame_count st mod FRAME_SKIP cfg =? 0 in
   let faces := if due then as_detection_set inf else last_detected_faces st in
   reads (step st (ReadGives raw inf)).1 = [raw]
   /\ analyzed (step st (ReadGives raw inf)).1 = (if due then [frame] else [])
   /\ match draw_overlay getTextSize frame faces with
      | Ok img =>
          under_overlay img = frame
          /\ rendered (step st (ReadGives raw inf)).1 = [img]
          /\ yielded (step st (ReadGives raw inf)).1
             = match imencode ".jpg" img with
               | Some jpeg => [stream_part jpeg]
               | None => []
               end
          /\ exists st', (step st (ReadGives raw inf)).2 = Running st'
      | Raise e =>
          rendered (step st (ReadGives raw inf)).1 = []
          /\ yielded (step st (ReadGives raw inf)).1 = []
          /\ (step st (ReadGives raw inf)).2 = Died e
      end)
  /\ Forall (fun evs => mirrored evs /\ framed imencode evs) (run st script).1.
Proof.
  intros Hcap HN. split.
  - cbv zeta.
    destruct (step_frame_log st c raw inf Hcap HN) as (Hreads & Hcalls & _).
    split; [exact Hreads|]. split; [exact Hcalls|].
    rewrite (step_frame st c raw inf Hcap HN). cbv zeta.
    destruct (draw_overlay getTextSize (Flip (Captured raw) 1) _) as [img|e] eqn:Hdraw.
    + split; [exact (draw_overlay_under _ _ _ Hdraw)|].
      destruct (frame_count st mod FRAME_SKIP cfg =? 0); simpl;
        rewrite rendered_emit, yielded_emit; repeat split; eexists; reflexivity.
    + destruct (frame_count st mod FRAME_SKIP cfg =? 0); repeat split.
  - apply run_Forall. intros st' inp. split.
    + apply step_mirrored.
    + apply step_framed.
Qed.

(** C7.  Over any run of [generate_frames], the parts yielded are, in
    order, the frames that were encoded successfully, each laid out as
    marker, CRLF, header, CRLF, CRLF, JPEG bytes, CRLF; nothing else is
    yielded. *)
Theorem every_part_is_framed cap0 o script :
  let '(before, (logs, _)) := generate_frames cfg imencode getTextSize cap0 o script in
  yielded (before ++ concat logs)
  = map (fun jpeg =>
           list_byte_of_string "--frame" ++ CRLF
             ++ list_byte_of_string "Content-Type: image/jpeg" ++ CRLF ++ CRLF
             ++ jpeg ++ CRLF)
      (omap (imencode ".jpg") (rendered (before ++ concat logs))).
Proof.
  assert (Hloop : forall st, framed imencode (concat (run st script).1)).
  { intros st. apply framed_concat, run_Forall, step_framed. }
  unfold generate_frames. destruct cap0 as [c|].
  - specialize (Hloop (start c)). destruct (run (start c) script) as [logs out].
    exact Hloop.
  - destruct (quiet_initialize_camera o) as (_ & Hr & Hy).
    destruct (initialize_camera cfg o) as [cap' evs]. simpl in Hr, Hy.
    destruct cap' as [c|].
    + specialize (Hloop (start c)). destruct (run (start c) script) as [logs out].
      change (yielded (evs ++ concat logs)
              = map stream_part
                  (omap (imencode ".jpg") (rendered (evs ++ concat logs)))).
      rewrite yielded_app, rendered_app, Hr, Hy. exact Hloop.
    + change (yielded (evs ++ [])
              = map stream_part (omap (imencode ".jpg") (rendered (evs ++ [])))).
      rewrite app_nil_r, Hr, Hy. reflexivity.
Qed.

(** C8.  When the encoding of the frame rendered in an iteration fails,
    the iteration yields nothing and the generator keeps running with
    the camera it had; the run goes on with the rest of the script from
    there, and in every later iteration each frame that is encoded
    successfully is yielded with the multipart layout. *)
Theorem encode_failure_drops_one_frame st inp rest img :
  let '(evs, out) := step st inp in
  rendered evs = [img] ->
  imencode ".jpg" img = None ->
  yielded evs = []
  /\ exists st',
      out = Running st'
      /\ cap st' = cap st
      /\ run st (inp :: rest) = (evs :: (run st' rest).1, (run st' rest).2)
      /\ Forall (framed imencode) (run st' rest).1.
Proof.
  pose proof (step_framed st inp) as Hframed.
  simpl. unfold loop_iteration in *.
  destruct (cap st) as [c|] eqn:Hcap; [|discriminate].
  destruct inp as [o|raw inf].
  - destruct (quiet_initialize_camera o) as (_ & Hr & _).
    destruct (initialize_camera cfg o) as [cap' evs]. simpl in Hr.
    intros Hrend. exfalso. revert Hrend.
    change (rendered (evs ++ [Sleep 1]) <> [img]).
    rewrite rendered_app, Hr. discriminate.
  - destruct (FRAME_SKIP cfg =? 0); [discriminate|].
    pose proof (rendered_throttle (Flip (Captured raw) 1) st inf) as Hr.
    destruct (throttle cfg _ st inf) as [faces evs]. simpl in Hr.
    destruct (draw_overlay _ _ _) as [frame'|e].
    + simpl in Hframed. intros Hrend Henc.
      unfold framed in Hframed. rewrite Hrend in Hframed. simpl in Hframed.
      rewrite Henc in Hframed. split; [exact Hframed|].
      eexists. split; [reflexivity|]. split; [reflexivity|]. split.
      * simpl. destruct (run _ rest) as [logs out']. reflexivity.
      * apply run_Forall, step_framed.
    + intros Hrend. exfalso. revert Hrend.
      change (rendered evs <> [img]). rewrite Hr. discriminate.
Qed.

(** C5, as the script behaves.  After a failed read the camera is
    reopened and nothing is yielded; when the reopen succeeds the run
    goes on with the new capture, and when it fails the next iteration
    ends the generator with [AttributeError]. *)
Theorem failed_reopen_ends_stream c n faces o inp rest :
  let st := {| cap := Some c; frame_count := n; last_detected_faces := faces |} in
  let '(evs, out) := step st (ReadFails o) in
  In (VideoCaptureCall (CAMERA_INDEX cfg)) evs
  /\ yielded evs = []
  /\ (run st (ReadFails o :: inp :: rest)).2
     = match o with
       | Opened =>
           (run {| cap := Some (Capture (CAMERA_INDEX cfg));
                   frame_count := n;
                   last_detected_faces := faces |} (inp :: rest)).2
       | _ => Died AttributeError
       end.
Proof.
  destruct o; simpl; (split; [auto|split; [reflexivity|]]).
  - destruct (step _ inp) as [evs out]. destruct out; [|reflexivity..].
    destruct (run _ rest). reflexivity.
  - reflexivity.
  - reflexivity.
Qed.

(** C6.  [main] serves on 0.0.0.0:5001 as its last act when the camera
    opens; when it does not, [main] prints the tip about other device
    indices, then that it exits, and never starts the server. *)
Theorem startup_failure_does_not_serve o :
  let '(evs, cap') := main cfg o in
  match o with
  | Opened =>
      served evs = [("0.0.0.0", 5001)]
      /\ last evs = Some (AppRun "0.0.0.0" 5001)
      /\ cap' = Some (Capture (CAMERA_INDEX cfg))
  | _ =>
      In (Print "Tip: Try changing CAMERA_INDEX to 0, 1, or 2.") evs
      /\ served evs = []
      /\ last evs = Some (Print "Failed to initialize camera. Exiting.")
      /\ cap' = None
  end.
Proof. destruct o; simpl; repeat split; auto. Qed.

(** *** Detections without a region or a label *)

Lemma draw_face_lacks frame d :
  lacks "region" d \/ lacks "dominant_emotion" d ->
  draw_face getTextSize frame d = Ok frame.
Proof.
  unfold lacks, draw_face. intros [-> | ->]; [reflexivity|].
  rewrite orb_true_r. reflexivity.
Qed.

Lemma face_drawings_lacks d :
  lacks "region" d \/ lacks "dominant_emotion" d ->
  face_drawings getTextSize d = [].
Proof.
  unfold lacks, dict_get, face_drawings.
  destruct (d !! "region") as [[|n|s|region]|]; try reflexivity.
  destruct (d !! "dominant_emotion") as [[|n|emotion|r]|]; try reflexivity.
  simpl. intros [Hregion|Hemotion].
  - apply negb_false_iff, bool_decide_eq_true in Hregion. subst region.
    rewrite lookup_empty. reflexivity.
  - apply negb_false_iff in Hemotion. rewrite Hemotion.
    repeat (destruct (region !! _); try reflexivity).
Qed.

Lemma draw_face_complete frame d :
  complete d ->
  exists img,
    draw_face getTextSize frame d = Ok img
    /\ drawings img = drawings frame ++ face_drawings getTextSize d.
Proof.
  intros (region & x & y & w & h & emotion & Hr & Hx & Hy & Hw & Hh & He & Hne).
  unfold draw_face, face_drawings, dict_get. rewrite Hr, He. simpl.
  assert (Hregion : bool_decide (region = ∅) = false).
  { apply bool_decide_eq_false. intros ->. rewrite lookup_empty in Hx. discriminate. }
  assert (Hemotion : String.eqb emotion "" = false).
  { apply String.eqb_neq. exact Hne. }
  rewrite Hregion, Hemotion, Hx, Hy, Hw, Hh. simpl.
  destruct (getTextSize _ _ _ _) as [[text_w text_h] baseline].
  eexists. split; [reflexivity|]. simpl.
  rewrite <- !app_assoc. reflexivity.
Qed.

Lemma for_faces_app before : forall frame after,
  for_faces getTextSize frame (before ++ after)
  = (try! frame' := for_faces getTextSize frame before in
     for_faces getTextSize frame' after).
Proof.
  induction before as [|d before IH]; intros frame after; simpl; [reflexivity|].
  destruct (draw_face getTextSize frame d) as [frame'|e]; simpl; [apply IH|reflexivity].
Qed.

Lemma for_faces_drawings faces : forall frame,
  Forall (fun d => lacks "region" d \/ lacks "dominant_emotion" d \/ complete d) faces ->
  exists img,
    for_faces getTextSize frame faces = Ok img
    /\ under_overlay img = under_overlay frame
    /\ drawings img = drawings frame ++ concat (map (face_drawings getTextSize) faces).
Proof.
  induction faces as [|d faces IH]; intros frame Hall; simpl.
  - exists frame. rewrite app_nil_r. repeat split.
  - inversion Hall as [|? ? Hd Hrest]; subst.
    assert (Hone : exists img,
               draw_face getTextSize frame d = Ok img
               /\ drawings img = drawings frame ++ face_drawings getTextSize d).
    { destruct Hd as [Hd|[Hd|Hd]].
      - exists frame. rewrite draw_face_lacks, face_drawings_lacks, app_nil_r by auto.
        split; reflexivity.
      - exists frame. rewrite draw_face_lacks, face_drawings_lacks, app_nil_r by auto.
        split; reflexivity.
      - apply draw_face_complete, Hd. }
    destruct Hone as (frame' & Hdraw & Hdrawn).
    destruct (IH frame' Hrest) as (img & Hfor & Hunder & Hall').
    exists img. rewrite Hdraw. simpl. split; [exact Hfor|]. split.
    + rewrite Hunder. exact (draw_face_under _ _ _ Hdraw).
    + rewrite Hall', Hdrawn, app_assoc. reflexivity.
Qed.

(** C4.  A Detection that lacks a region or a non-empty label changes
    neither the frame nor the outcome of the overlay, wherever it
    stands in the Detection Set; and over a Detection Set whose members
    each lack one of the two or have both, with coordinates OpenCV
    accepts, the overlay raises nothing and makes exactly the drawing
    calls of the members that have both, in the order of the set (three
    calls for each of them, none for the others). *)
Theorem incomplete_detections_are_skipped :
  (forall frame before d after,
      lacks "region" d \/ lacks "dominant_emotion" d ->
      draw_overlay getTextSize frame (before ++ d :: after)
      = draw_overlay getTextSize frame (before ++ after))
  /\ (forall frame faces,
        Forall (fun d =>
                  (lacks "region" d \/ lacks "dominant_emotion" d \/ complete d)
                  /\ paintable getTextSize d = true)
          faces ->
        exists img,
          draw_overlay getTextSize frame faces = Ok img
          /\ under_overlay img = under_overlay frame
          /\ drawings img
             = drawings frame ++ concat (map (face_drawings getTextSize) faces))
  /\ (forall d,
        lacks "region" d \/ lacks "dominant_emotion" d ->
        face_drawings getTextSize d = [])
  /\ (forall d, complete d -> length (face_drawings getTextSize d) = 3%nat).
Proof.
  split; [|split; [|split]].
  - intros frame before d after Hd.
    rewrite !draw_overlay_for_faces, !for_faces_app.
    destruct (for_faces getTextSize frame before) as [frame'|e]; [|reflexivity].
    simpl. rewrite (draw_face_lacks _ _ Hd). reflexivity.
  - intros frame faces Hall. rewrite draw_overlay_for_faces.
    apply for_faces_drawings.
    eapply List.Forall_impl; [|exact Hall]. intros d [Hd _]. exact Hd.
  - apply face_drawings_lacks.
  - intros d (region & x & y & w & h & emotion & Hr & Hx & Hy & Hw & Hh & He & Hne).
    unfold face_drawings. rewrite Hr, He, Hx, Hy, Hw, Hh.
    apply String.eqb_neq in Hne. rewrite Hne.
    destruct (getTextSize _ _ _ _) as [[text_w text_h] baseline]. reflexivity.
Qed.

(** What is drawn for a Detection with a region and a label. *)
Lemma draw_face_both frame d region x y w h emotion text_w text_h baseline :
  d !! "region" = Some (PyDict region) ->
  region !! "x" = Some x -> region !! "y" = Some y ->
  region !! "w" = Some w -> region !! "h" = Some h ->
  d !! "dominant_emotion" = Some (PyStr emotion) ->
  emotion <> "" ->
  getTextSize ("Emotion: " +:+ str_capitalize emotion) FONT_HERSHEY_SIMPLEX (7 # 10)%Q 2
  = ((text_w, text_h), baseline) ->
  draw_face getTextSize frame d
  = Ok (PutText
          (Rectangle
             (Rectangle frame (x, y) (x + w, y + h) (0, 255, 0) 2)
             (x, y - text_h - 10) (x + text_w, y - 5) (0, 255, 0) (-1))
          ("Emotion: " +:+ str_capitalize emotion) (x, y - 10)
          FONT_HERSHEY_SIMPLEX (7 # 10)%Q (0, 0, 0) 2).
Proof.
  intros Hr Hx Hy Hw Hh He Hne Hsize.
  unfold draw_face, dict_get. rewrite Hr, He. simpl.
  assert (Hregion : bool_decide (region = ∅) = false).
  { apply bool_decide_eq_false. intros ->. rewrite lookup_empty in Hx. discriminate. }
  apply String.eqb_neq in Hne.
  rewrite Hregion, Hne, Hx, Hy, Hw, Hh. simpl. rewrite Hsize. reflexivity.
Qed.

(** *** Runs of frames between two inference attempts *)

Lemma step_due st c raw inf img :
  cap st = Some c -> FRAME_SKIP cfg <> 0 ->
  frame_count st mod FRAME_SKIP cfg = 0 ->
  draw_overlay getTextSize (Flip (Captured raw) 1) (as_detection_set inf) = Ok img ->
  step st (ReadGives raw inf)
  = (CapRead (Some raw)
       :: Analyze (Flip (Captured raw) 1) (DETECTOR_BACKEND cfg) inf
       :: emit imencode img,
     Running {| cap := Some c;
                frame_count := frame_count st + 1;
                last_detected_faces := as_detection_set inf |}).
Proof.
  intros Hcap HN Hdue Hdraw. rewrite (step_frame st c raw inf Hcap HN). cbv zeta.
  rewrite Hdue. change (0 =? 0) with true. cbv iota. rewrite Hdraw. reflexivity.
Qed.

Lemma step_skipped st c raw inf img :
  cap st = Some c -> FRAME_SKIP cfg <> 0 ->
  frame_count st mod FRAME_SKIP cfg <> 0 ->
  draw_overlay getTextSize (Flip (Captured raw) 1) (last_detected_faces st) = Ok img ->
  step st (ReadGives raw inf)
  = (CapRead (Some raw) :: emit imencode img,
     Running {| cap := Some c;
                frame_count := frame_count st + 1;
                last_detected_faces := last_detected_faces st |}).
Proof.
  intros Hcap HN Hskip Hdraw. rewrite (step_frame st c raw inf Hcap HN). cbv zeta.
  apply Z.eqb_neq in Hskip. rewrite Hskip, Hdraw. reflexivity.
Qed.

Lemma run_cons st inp rest :
  run st (inp :: rest)
  = let '(evs, out) := step st inp in
    match out with
    | Running st' => let '(logs, out') := run st' rest in (evs :: logs, out')
    | _ => ([evs], out)
    end.
Proof. reflexivity. Qed.

Lemma run_cons_running st inp rest evs st' :
  step st inp = (evs, Running st') ->
  (run st (inp :: rest)).1 = evs :: (run st' rest).1
  /\ (run st (inp :: rest)).2 = (run st' rest).2.
Proof.
  intros Hstep. rewrite run_cons, Hstep.
  destruct (run st' rest) as [logs out']. split; reflexivity.
Qed.

(** Frames read while no inference is due are all drawn with the cache
    as it stands. *)
Lemma run_between_attempts raw img infs : forall st c,
  cap st = Some c -> FRAME_SKIP cfg <> 0 ->
  (forall j : nat, (j < length infs)%nat ->
                   (frame_count st + Z.of_nat j) mod FRAME_SKIP cfg <> 0) ->
  draw_overlay getTextSize (Flip (Captured raw) 1) (last_detected_faces st) = Ok img ->
  map rendered (run st (map (ReadGives raw) infs)).1 = repeat [img] (length infs)
  /\ map analyzed (run st (map (ReadGives raw) infs)).1 = repeat [] (length infs)
  /\ (run st (map (ReadGives raw) infs)).2
     = Running {| cap := Some c;
                  frame_count := frame_count st + Z.of_nat (length infs);
                  last_detected_faces := last_detected_faces st |}.
Proof.
  induction infs as [|inf infs IH]; intros st c Hcap HN Hskip Hdraw.
  - simpl. repeat split. rewrite Z.add_0_r. destruct st; simpl in *. congruence.
  - change (map (ReadGives raw) (inf :: infs))
      with (ReadGives raw inf :: map (ReadGives raw) infs).
    assert (Hnow : frame_count st mod FRAME_SKIP cfg <> 0).
    { specialize (Hskip 0%nat). rewrite Z.add_0_r in Hskip. apply Hskip. simpl. lia. }
    pose proof (step_skipped st c raw inf img Hcap HN Hnow Hdraw) as Hstep.
    set (st1 := {| cap := Some c; frame_count := frame_count st + 1;
                   last_detected_faces := last_detected_faces st |}) in Hstep.
    destruct (run_cons_running st _ (map (ReadGives raw) infs) _ st1 Hstep)
      as [-> ->].
    destruct (IH st1 c eq_refl HN) as (Hr & Ha & Hout).
    { intros j Hj. simpl.
      replace (frame_count st + 1 + Z.of_nat j)
        with (frame_count st + Z.of_nat (S j)) by lia.
      apply Hskip. simpl. lia. }
    { exact Hdraw. }
    simpl. rewrite Hr, Ha, Hout, rendered_emit, analyzed_emit.
    repeat split. subst st1. simpl. do 2 f_equal. lia.
Qed.

End LoopFacts.

(** ** The scenario of section 8 and concrete runs *)

(** C9.  With FRAME_SKIP = 10, ten reads of the same frame, and the
    inference call on frame 0 returning one face at region
    (10, 10, 50, 50) labelled "happy" (whatever the model would return on
    the other nine, it is not asked): inference runs once, on the
    mirrored frame 0, and each of the ten frames handed to the encoder
    carries the box from (10, 10) to (60, 60) and the label
    "Emotion: Happy". *)
Theorem ten_identical_frames_show_happy_box
    (imencode : string -> Image -> option (list byte))
    (getTextSize : string -> Font -> Q -> Z -> (Z * Z) * Z)
    (c : VideoCapture) (raw : nat) (others : nat -> InferOutcome) :
  let script :=
    ReadGives raw (Detected [face 10 10 50 50 "happy"])
      :: map (fun i => ReadGives raw (others i)) (seq 1 9) in
  let logs := (run_loop script_config imencode getTextSize (start c) script).1 in
  let '((text_w, text_h), _) :=
    getTextSize "Emotion: Happy" FONT_HERSHEY_SIMPLEX (7 # 10)%Q 2 in
  let shown :=
    PutText
      (Rectangle
         (Rectangle (Flip (Captured raw) 1) (10, 10) (60, 60) (0, 255, 0) 2)
         (10, 10 - text_h - 10) (10 + text_w, 5) (0, 255, 0) (-1))
      "Emotion: Happy" (10, 0) FONT_HERSHEY_SIMPLEX (7 # 10)%Q (0, 0, 0) 2 in
  map rendered logs = repeat [shown] 10
  /\ map analyzed logs = [Flip (Captured raw) 1] :: repeat [] 9.
Proof.
  intros script logs.
  destruct (getTextSize "Emotion: Happy" FONT_HERSHEY_SIMPLEX (7 # 10)%Q 2)
    as [[text_w text_h] baseline] eqn:Hsize.
  intros shown.
  assert (Hdraw : forall faces,
             faces = [face 10 10 50 50 "happy"] ->
             draw_overlay getTextSize (Flip (Captured raw) 1) faces = Ok shown).
  { intros faces ->. unfold draw_overlay, for_faces.
    rewrite (draw_face_both getTextSize (Flip (Captured raw) 1) (face 10 10 50 50 "happy")
               {[ "x" := 10; "y" := 10; "w" := 50; "h" := 50 ]} 10 10 50 50 "happy"
               text_w text_h baseline);
      try reflexivity; [discriminate|exact Hsize]. }
  assert (HN : FRAME_SKIP script_config <> 0) by discriminate.
  subst logs script.
  pose proof (step_due script_config imencode getTextSize (start c) c raw
                (Detected [face 10 10 50 50 "happy"]) shown
                eq_refl HN eq_refl (Hdraw _ eq_refl)) as Hfirst.
  set (st1 := {| cap := Some c; frame_count := frame_count (start c) + 1;
                 last_detected_faces :=
                   as_detection_set (Detected [face 10 10 50 50 "happy"]) |})
    in Hfirst.
  rewrite <- (map_map others (ReadGives raw)).
  destruct (run_cons_running script_config imencode getTextSize (start c) _
              (map (ReadGives raw) (map others (seq 1 9))) _ st1 Hfirst) as [-> _].
  destruct (run_between_attempts script_config imencode getTextSize raw shown
              (map others (seq 1 9)) st1 c eq_refl HN) as (Hr & Ha & _).
  { intros j Hj. simpl in Hj.
    do 9 (destruct j as [|j]; [discriminate|]). lia. }
  { apply Hdraw. reflexivity. }
  rewrite !map_cons, Hr, Ha.
  change (rendered (CapRead (Some raw) :: Analyze (Flip (Captured raw) 1)
                      (DETECTOR_BACKEND script_config)
                      (Detected [face 10 10 50 50 "happy"]) :: emit imencode shown))
    with (rendered (emit imencode shown)).
  change (analyzed (CapRead (Some raw) :: Analyze (Flip (Captured raw) 1)
                      (DETECTOR_BACKEND script_config)
                      (Detected [face 10 10 50 50 "happy"]) :: emit imencode shown))
    with (Flip (Captured raw) 1 :: analyzed (emit imencode shown)).
  rewrite rendered_emit, analyzed_emit. split; reflexivity.
Qed.

Example demo_inference_calls :
  map analyzed (run_loop every_other toy_imencode toy_text_size (start (Capture 1)) demo_script).1
  = [[Flip (Captured 0) 1]; []; [Flip (Captured 2) 1]; []; []; [Flip (Captured 4) 1]].
Proof. vm_compute. reflexivity. Qed.

Example demo_overlay_sizes :
  map (fun evs => map overlay_depth (rendered evs))
    (run_loop every_other toy_imencode toy_text_size (start (Capture 1)) demo_script).1
  = [[3%nat]; [3%nat]; [3%nat]; []; [3%nat]; [0%nat]].
Proof. vm_compute. reflexivity. Qed.

Example unplugged_run_dies :
  (run_loop script_config toy_imencode toy_text_size (start (Capture 1)) unplugged_script).2
  = Died AttributeError.
Proof. vm_compute. reflexivity. Qed.

Lemma inference_every_nth_frame_witness :
  let frames :=
    [(0%nat, Detected [happy]); (1%nat, Detected []);
     (2%nat, AnalyzeRaised "model failed"); (3%nat, Detected []);
     (4%nat, Detected [no_region])] in
  let r := run_loop every_other toy_imencode toy_text_size (start (Capture 1))
             (map (fun f => ReadGives f.1 f.2) frames) in
  let general :=
    run_loop every_other toy_imencode toy_text_size (start (Capture 1)) demo_script in
  1 <= FRAME_SKIP every_other
  /\ ((forall (i : nat) evs,
          processed general.1 !! i = Some evs ->
          exists raw rest,
            evs = CapRead (Some raw) :: rest
            /\ analyzed rest
               = (if Z.of_nat i mod FRAME_SKIP every_other =? 0
                  then [Flip (Captured raw) 1] else []))
      /\ Forall (fun evs => got_frame evs = true \/ analyzed evs = []) general.1
      /\ (forall st, general.2 = Running st ->
            frame_count st = Z.of_nat (length (processed general.1))))
  /\ (map reads r.1 = [[0%nat]; [1%nat]; [2%nat]; [3%nat]; [4%nat]]
      /\ map analyzed r.1
         = [[Flip (Captured 0) 1]; []; [Flip (Captured 2) 1]; [];
            [Flip (Captured 4) 1]]
      /\ length r.1 = 5%nat
      /\ frame_count
           match r.2 with
           | Running st => st
           | _ => start (Capture 1)
           end = 5).
Proof.
  intros frames r general.
  assert (HN : 1 <= FRAME_SKIP every_other) by (simpl; lia).
  split; [exact HN|].
  destruct (inference_every_nth_frame every_other toy_imencode toy_text_size
              (Capture 1) demo_script frames HN) as (Hgeneral & Hreads & Hcalls & Hout).
  split; [exact Hgeneral|].
  split; [exact Hreads|]. split; [exact Hcalls|].
  exact Hout.
Defined.

Lemma skipped_frames_reuse_latest_detections_witness :
  let pre := [ReadGives 0 (Detected [happy])] in
  let st := {| cap := Some (Capture 1); frame_count := 1; last_detected_faces := [happy] |} in
  let logs := (run_loop script_config toy_imencode toy_text_size (start (Capture 1)) pre).1 in
  let step := loop_iteration script_config toy_imencode toy_text_size st
                (ReadGives 1 (AnalyzeRaised "not asked")) in
  1 <= FRAME_SKIP script_config
  /\ (run_loop script_config toy_imencode toy_text_size (start (Capture 1)) pre).2 = Running st
  /\ last_detected_faces st = most_recent_attempt logs
  /\ (forall raw rest,
        step.1 = CapRead (Some raw) :: rest -> analyzed rest = [] ->
        match draw_overlay toy_text_size (Flip (Captured raw) 1)
                (most_recent_attempt logs) with
        | Ok img =>
            rendered step.1 = [img]
            /\ exists st', step.2 = Running st'
                /\ last_detected_faces st' = most_recent_attempt logs
        | Raise e => rendered step.1 = [] /\ step.2 = Died e
        end)
  /\ (forall st', step.2 = Running st' ->
        last_detected_faces st'
        = match attempts step.1 with
          | [] => last_detected_faces st
          | r :: _ => as_detection_set r
          end).
Proof.
  intros pre st logs step.
  split; [simpl; lia|]. split; [reflexivity|].
  exact (skipped_frames_reuse_latest_detections script_config toy_imencode toy_text_size
           (Capture 1) pre (ReadGives 1 (AnalyzeRaised "not asked")) st
           ltac:(simpl; lia) eq_refl).
Defined.


Lemma incomplete_detections_are_skipped_witness :
  (lacks "region" no_region \/ lacks "dominant_emotion" no_region)
  /\ Forall (fun d =>
               (lacks "region" d \/ lacks "dominant_emotion" d \/ complete d)
               /\ paintable toy_text_size d = true)
       [happy; no_region; empty_label]
  /\ draw_overlay toy_text_size (Flip (Captured 0) 1) ([happy] ++ no_region :: [happy])
     = draw_overlay toy_text_size (Flip (Captured 0) 1) ([happy] ++ [happy])
  /\ exists img,
       draw_overlay toy_text_size (Flip (Captured 0) 1) [happy; no_region; empty_label]
       = Ok img
       /\ under_overlay img = under_overlay (Flip (Captured 0) 1)
       /\ drawings img
          = drawings (Flip (Captured 0) 1)
              ++ concat (map (face_drawings toy_text_size) [happy; no_region; empty_label]).
Proof.
  assert (Hlacks : lacks "region" no_region \/ lacks "dominant_emotion" no_region).
  { left. reflexivity. }
  assert (Hall : Forall (fun d =>
                           (lacks "region" d \/ lacks "dominant_emotion" d \/ complete d)
                           /\ paintable toy_text_size d = true)
                   [happy; no_region; empty_label]).
  { constructor; [|constructor; [|constructor; [|constructor]]].
    - split; [|vm_compute; reflexivity]. right. right.
      exists {[ "x" := 10; "y" := 10; "w" := 50; "h" := 50 ]}, 10, 10, 50, 50, "happy".
      repeat split; try reflexivity. discriminate.
    - split; [|vm_compute; reflexivity]. left. reflexivity.
    - split; [|vm_compute; reflexivity]. right. left. reflexivity. }
  split; [exact Hlacks|]. split; [exact Hall|].
  destruct (incomplete_detections_are_skipped toy_text_size) as (Hskip & Hdraw & _).
  split.
  - apply Hskip, Hlacks.
  - apply Hdraw, Hall.
Defined.

Lemma encode_failure_drops_one_frame_witness :
  let st := start (Capture 1) in
  let inp := ReadGives 13 (Detected []) in
  let rest := [ReadGives 1 (Detected [happy])] in
  let img := Flip (Captured 13) 1 in
  let step := loop_iteration script_config toy_imencode toy_text_size st inp in
  rendered step.1 = [img]
  /\ toy_imencode ".jpg" img = None
  /\ yielded step.1 = []
  /\ exists st',
      step.2 = Running st'
      /\ cap st' = cap st
      /\ run_loop script_config toy_imencode toy_text_size st (inp :: rest)
         = (step.1 :: (run_loop script_config toy_imencode toy_text_size st' rest).1,
            (run_loop script_config toy_imencode toy_text_size st' rest).2)
      /\ Forall (framed toy_imencode)
           (run_loop script_config toy_imencode toy_text_size st' rest).1.
Proof.
  intros st inp rest img step.
  split; [reflexivity|]. split; [reflexivity|].
  exact (encode_failure_drops_one_frame script_config toy_imencode toy_text_size
           st inp rest img eq_refl eq_refl).
Defined.


Lemma frames_mirrored_before_inference_and_overlay_witness :
  let st := start (Capture 1) in
  let step := loop_iteration script_config toy_imencode toy_text_size st
                (ReadGives 5 (Detected [happy])) in
  let img :=
    PutText
      (Rectangle
         (Rectangle (Flip (Captured 5) 1) (10, 10) (60, 60) (0, 255, 0) 2)
         (10, -18) (178, 5) (0, 255, 0) (-1))
      "Emotion: Happy" (10, 0) FONT_HERSHEY_SIMPLEX (7 # 10)%Q (0, 0, 0) 2 in
  cap st = Some (Capture 1)
  /\ FRAME_SKIP script_config <> 0
  /\ (reads step.1 = [5%nat]
      /\ analyzed step.1 = [Flip (Captured 5) 1]
      /\ under_overlay img = Flip (Captured 5) 1
      /\ rendered step.1 = [img]
      /\ yielded step.1 = [stream_part (list_byte_of_string "3")]
      /\ exists st', step.2 = Running st')
  /\ Forall (fun evs => mirrored evs /\ framed toy_imencode evs)
       (run_loop script_config toy_imencode toy_text_size st demo_script).1.
Proof.
  intros st step img.
  assert (HN : FRAME_SKIP script_config <> 0) by (simpl; lia).
  split; [reflexivity|]. split; [exact HN|].
  destruct (frames_mirrored_before_inference_and_overlay script_config toy_imencode
              toy_text_size st (Capture 1) 5%nat (Detected [happy]) demo_script
              eq_refl HN) as ((Hreads & Hcalls & Hdrawn) & Hall).
  split; [|exact Hall].
  split; [exact Hreads|]. split; [exact Hcalls|]. exact Hdrawn.
Defined.

(** * Further properties of the script *)

Section StreamFacts.

Variable cfg : Config.
Variable imencode : string -> Image -> option (list byte).
Variable getTextSize : string -> Font -> Q -> Z -> (Z * Z) * Z.

Local Abbreviation step := (loop_iteration cfg imencode getTextSize).
Local Abbreviation run := (run_loop cfg imencode getTextSize).

(** ** The calls before the loop (lines 43-48) *)

(** X1.  A generator started while the global [cap] is [None] opens the
    camera once and yields nothing before the loop; when that open
    fails it ends by [return] without a single iteration, and when it
    succeeds it runs as a generator started on an open camera does. *)
Theorem generator_without_camera o script :
  let '(before, (logs, out)) :=
    generate_frames cfg imencode getTextSize None o script in
  opens before = [CAMERA_INDEX cfg]
  /\ yielded before = []
  /\ match o with
     | Opened =>
         (logs, out)
         = (generate_frames cfg imencode getTextSize
              (Some (Capture (CAMERA_INDEX cfg))) o script).2
     | _ => logs = [] /\ out = Returned
     end.
Proof.
  unfold generate_frames. destruct o; simpl; [|repeat split..].
  destruct (run_loop _ _ _ _ script) as [logs out]. repeat split.
Qed.

(** ** How the loop ends *)

Lemma run_length script : forall st,
  match (run st script).2 with
  | Running _ => length (run st script).1 = length script
  | Died _ => (0 < length (run st script).1 <= length script)%nat
  | Returned => False
  end.
Proof.
  induction script as [|inp rest IH]; intros st; [reflexivity|].
  rewrite run_cons.
  assert (Hnever : (step st inp).2 <> Returned).
  { unfold loop_iteration. destruct (cap st); [|discriminate].
    destruct inp as [o|raw inf].
    - destruct (initialize_camera cfg o). discriminate.
    - destruct (FRAME_SKIP cfg =? 0); [discriminate|].
      destruct (throttle _ _ _ _). destruct (draw_overlay _ _ _); discriminate. }
  destruct (step st inp) as [evs out]. simpl in Hnever.
  destruct out as [st1|e|]; [|simpl; lia|contradiction].
  specialize (IH st1). destruct (run st1 rest) as [logs out']. simpl in *.
  destruct out'; [lia|lia|contradiction].
Qed.

(** X2.  The loop never ends by [return]: over any script it is still
    running after one iteration per entry, or it was ended by an
    exception in an iteration it had started. *)
Theorem loop_ends_only_by_exception st script :
  match (run_loop cfg imencode getTextSize st script).2 with
  | Running _ => length (run_loop cfg imencode getTextSize st script).1 = length script
  | Died _ =>
      (0 < length (run_loop cfg imencode getTextSize st script).1 <= length script)%nat
  | Returned => False
  end.
Proof. apply run_length. Qed.

(** ** The stream part *)

Lemma length_list_byte_of_string s :
  length (list_byte_of_string s) = String.length s.
Proof.
  unfold list_byte_of_string. rewrite length_map.
  induction s as [|a s IH]; simpl; congruence.
Qed.

(** X3.  The part built on lines 118-119 is the JPEG with 37 bytes in
    front and 2 behind, and two parts are equal only when their JPEGs
    are. *)
Theorem multipart_keeps_jpeg frame_bytes other :
  length (multipart frame_bytes) = (length frame_bytes + 39)%nat
  /\ take (length frame_bytes) (drop 37 (multipart frame_bytes)) = frame_bytes
  /\ (multipart frame_bytes = multipart other <-> frame_bytes = other).
Proof.
  assert (Htake : forall b, take (length b) (drop 37 (multipart b)) = b).
  { intros b.
    change (drop 37 (multipart b)) with (b ++ list_byte_of_string rn).
    apply take_app_length. }
  split; [|split].
  - unfold multipart. rewrite !length_app, !length_list_byte_of_string. simpl. lia.
  - apply Htake.
  - split; [|intros ->; reflexivity].
    intros Heq. unfold multipart in Heq.
    apply app_inv_tail in Heq. apply app_inv_head in Heq. exact Heq.
Qed.

(** ** The camera inside the loop *)

Lemma opens_app l1 l2 : opens (l1 ++ l2) = opens l1 ++ opens l2.
Proof. apply omap_app. Qed.

Lemma sleeps_app l1 l2 : sleeps (l1 ++ l2) = sleeps l1 ++ sleeps l2.
Proof. apply omap_app. Qed.

Lemma camera_emit frame :
  opens (emit imencode frame) = [] /\ sleeps (emit imencode frame) = [].
Proof. unfold emit. destruct (imencode _ _); split; reflexivity. Qed.

Lemma camera_throttle frame st inf :
  opens (throttle cfg frame st inf).2 = [] /\ sleeps (throttle cfg frame st inf).2 = [].
Proof. unfold throttle. destruct (_ =? 0); split; reflexivity. Qed.

Lemma camera_initialize_camera o :
  opens (initialize_camera cfg o).2 = [CAMERA_INDEX cfg]
  /\ sleeps (initialize_camera cfg o).2 = [].
Proof. destruct o; split; reflexivity. Qed.

Lemma step_reopens st inp :
  match (step st inp).1 with
  | CapRead None :: _ =>
      opens (step st inp).1 = [CAMERA_INDEX cfg] /\ sleeps (step st inp).1 = [1]
      /\ analyzed (step st inp).1 = [] /\ rendered (step st inp).1 = []
      /\ yielded (step st inp).1 = []
  | _ => opens (step st inp).1 = [] /\ sleeps (step st inp).1 = []
  end.
Proof.
  unfold loop_iteration.
  destruct (cap st) as [c|]; [|split; reflexivity].
  destruct inp as [o|raw inf].
  - destruct (camera_initialize_camera o) as [Ho Hs].
    destruct (quiet_initialize_camera cfg o) as (Ha & Hr & Hy).
    destruct (initialize_camera cfg o) as [cap' evs]. simpl in *.
    change (opens (evs ++ [Sleep 1]) = [CAMERA_INDEX cfg]
            /\ sleeps (evs ++ [Sleep 1]) = [1]
            /\ analyzed (evs ++ [Sleep 1]) = []
            /\ rendered (evs ++ [Sleep 1]) = []
            /\ yielded (evs ++ [Sleep 1]) = []).
    rewrite opens_app, sleeps_app, analyzed_app, rendered_app, yielded_app.
    rewrite Ho, Hs, Ha, Hr, Hy. repeat split.
  - destruct (FRAME_SKIP cfg =? 0); [split; reflexivity|].
    destruct (camera_throttle (Flip (Captured raw) 1) st inf) as [Ho Hs].
    destruct (throttle cfg _ st inf) as [faces evs]. simpl in Ho, Hs.
    destruct (draw_overlay _ _ _) as [frame'|e]; simpl.
    + change (opens (evs ++ emit imencode frame') = []
              /\ sleeps (evs ++ emit imencode frame') = []).
      destruct (camera_emit frame') as [Ho' Hs'].
      rewrite opens_app, sleeps_app, Ho, Hs, Ho', Hs'. split; reflexivity.
    + change (opens evs = [] /\ sleeps evs = []). split; assumption.
Qed.

(** X4.  Inside the loop the camera is opened again only in an iteration
    whose read failed: such an iteration opens [CAMERA_INDEX] once,
    sleeps one second once, and neither analyses, encodes nor yields;
    every other iteration neither opens the camera nor sleeps. *)
Theorem camera_reopened_only_after_failed_read st script :
  Forall
    (fun evs =>
       match evs with
       | CapRead None :: _ =>
           opens evs = [CAMERA_INDEX cfg] /\ sleeps evs = [1]
           /\ analyzed evs = [] /\ rendered evs = [] /\ yielded evs = []
       | _ => opens evs = [] /\ sleeps evs = []
       end)
    (run st script).1.
Proof.
  apply run_Forall. intros st' inp. pose proof (step_reopens st' inp) as Hstep.
  destruct (step st' inp).1 as [|[] ?]; exact Hstep.
Qed.

(** ** When the overlay raises *)

Lemma truthy_dict_nonempty (region : gmap string Z) key n :
  region !! key = Some n -> truthy (PyDict region) = true.
Proof.
  intros Hkey. simpl. apply negb_true_iff, bool_decide_eq_false.
  intros ->. rewrite lookup_empty in Hkey. discriminate.
Qed.

Lemma draw_face_ok_drawable frame d img :
  draw_face getTextSize frame d = Ok img -> drawable d.
Proof.
  unfold draw_face, drawable, lacks, complete, dict_get.
  destruct (truthy (default PyNone (d !! "region"))) eqn:Hregion; [|auto].
  destruct (truthy (default PyNone (d !! "dominant_emotion"))) eqn:Hlabel; [|auto].
  simpl. intros Hdraw. right. right.
  destruct (d !! "region") as [[|n|s|region]|]; try discriminate.
  simpl in Hdraw.
  destruct (region !! "x") as [x|] eqn:Hx; [|discriminate].
  destruct (region !! "y") as [y|] eqn:Hy; [|discriminate].
  destruct (region !! "w") as [w|] eqn:Hw; [|discriminate].
  destruct (region !! "h") as [h|] eqn:Hh; [|discriminate].
  simpl in Hdraw.
  destruct (d !! "dominant_emotion") as [[|n|emotion|r]|]; try discriminate.
  simpl in Hlabel. apply negb_true_iff, String.eqb_neq in Hlabel.
  exists region, x, y, w, h, emotion. repeat split; assumption.
Qed.

Lemma for_faces_ok_drawable faces : forall frame img,
  for_faces getTextSize frame faces = Ok img -> Forall drawable faces.
Proof.
  induction faces as [|d faces IH]; intros frame img Hfor; [constructor|].
  simpl in Hfor.
  destruct (draw_face getTextSize frame d) as [frame'|e] eqn:Hd; [|discriminate].
  constructor; [exact (draw_face_ok_drawable _ _ _ Hd)|exact (IH _ _ Hfor)].
Qed.

Lemma drawable_overlay_ok frame faces :
  Forall drawable faces ->
  exists img, draw_overlay getTextSize frame faces = Ok img.
Proof.
  intros Hall. rewrite draw_overlay_for_faces.
  destruct (for_faces_drawings getTextSize faces frame Hall) as (img & Hfor & _).
  exists img. exact Hfor.
Qed.

(** X5.  Over Detections whose drawing calls OpenCV accepts, the overlay
    goes through exactly when every Detection of the set either lacks a
    region or a label (and is skipped) or has a region with the four
    integers and a non-empty string label: one Detection with a region
    short of a key, or with a region or label of another type, makes it
    raise. *)
Theorem overlay_succeeds_iff_drawable frame faces :
  Forall (fun d => paintable getTextSize d = true) faces ->
  ((exists img, draw_overlay getTextSize frame faces = Ok img)
   <-> Forall drawable faces).
Proof.
  intros _. split.
  - intros [img Hdraw]. rewrite draw_overlay_for_faces in Hdraw.
    exact (for_faces_ok_drawable _ _ _ Hdraw).
  - apply drawable_overlay_ok.
Qed.

Lemma draw_face_missing_key frame d region key :
  d !! "region" = Some (PyDict region) ->
  region <> ∅ ->
  first_missing region = Some key ->
  truthy (dict_get d "dominant_emotion") = true ->
  draw_face getTextSize frame d = Raise (KeyError key).
Proof.
  intros Hr Hne Hkey Hlabel. unfold draw_face. rewrite Hlabel.
  assert (Hget : dict_get d "region" = PyDict region).
  { unfold dict_get. rewrite Hr. reflexivity. }
  rewrite Hget. simpl.
  rewrite (bool_decide_eq_false_2 _ Hne). simpl.
  unfold first_missing in Hkey. simpl in Hkey.
  destruct (region !! "x") as [x|]; simpl in Hkey |- *;
    [|injection Hkey as <-; reflexivity].
  destruct (region !! "y") as [y|]; simpl in Hkey |- *;
    [|injection Hkey as <-; reflexivity].
  destruct (region !! "w") as [w|]; simpl in Hkey |- *;
    [|injection Hkey as <-; reflexivity].
  destruct (region !! "h") as [h|]; simpl in Hkey |- *;
    [discriminate|injection Hkey as <-; reflexivity].
Qed.

(** X6.  A Detection whose region is a non-empty dictionary short of one
    of x, y, w, h, and whose label is not empty, ends the stream: when
    the model returns it on a frame where inference is due (behind
    Detections the overlay can take and OpenCV can paint), the iteration
    makes the inference call, raises [KeyError] for the first missing
    key out of the generator, and neither encodes nor yields the
    frame. *)
Theorem malformed_region_ends_stream st c raw before d after region key :
  cap st = Some c ->
  FRAME_SKIP cfg <> 0 ->
  frame_count st mod FRAME_SKIP cfg = 0 ->
  Forall (fun d => drawable d /\ paintable getTextSize d = true) before ->
  d !! "region" = Some (PyDict region) ->
  region <> ∅ ->
  first_missing region = Some key ->
  truthy (dict_get d "dominant_emotion") = true ->
  step st (ReadGives raw (Detected (before ++ d :: after)))
  = ([CapRead (Some raw);
      Analyze (Flip (Captured raw) 1) (DETECTOR_BACKEND cfg)
        (Detected (before ++ d :: after))],
     Died (KeyError key)).
Proof.
  intros Hcap HN Hdue Hpainted Hr Hne Hkey Hlabel.
  assert (Hbefore : Forall drawable before).
  { eapply List.Forall_impl; [|exact Hpainted]. intros d' [Hd _]. exact Hd. }
  rewrite (step_frame cfg imencode getTextSize st c raw _ Hcap HN). cbv zeta.
  rewrite Hdue. change (0 =? 0) with true. cbv iota.
  change (as_detection_set (Detected (before ++ d :: after)))
    with (before ++ d :: after).
  rewrite draw_overlay_for_faces, for_faces_app.
  destruct (for_faces_drawings getTextSize before (Flip (Captured raw) 1) Hbefore)
    as (img & -> & _).
  simpl. rewrite (draw_face_missing_key img d region key Hr Hne Hkey Hlabel).
  reflexivity.
Qed.

(** ** When the stream cannot end *)

Lemma step_benign st c inp :
  cap st = Some c ->
  FRAME_SKIP cfg <> 0 ->
  Forall drawable (last_detected_faces st) ->
  benign getTextSize inp ->
  exists st' c',
    (step st inp).2 = Running st'
    /\ cap st' = Some c'
    /\ Forall drawable (last_detected_faces st').
Proof.
  intros Hcap HN Hcache Hinp. destruct inp as [o|raw inf].
  - simpl in Hinp. subst o. unfold loop_iteration. rewrite Hcap. simpl.
    eexists. eexists. repeat split. exact Hcache.
  - rewrite (step_frame cfg imencode getTextSize st c raw inf Hcap HN). cbv zeta.
    set (faces := if frame_count st mod FRAME_SKIP cfg =? 0
                  then as_detection_set inf else last_detected_faces st).
    assert (Hfaces : Forall drawable faces).
    { subst faces. destruct (_ =? 0); [|exact Hcache].
      destruct inf as [detected|msg]; [|constructor].
      simpl in Hinp |- *. eapply List.Forall_impl; [|exact Hinp].
      intros d [Hd _]. exact Hd. }
    destruct (drawable_overlay_ok (Flip (Captured raw) 1) faces Hfaces) as [img ->].
    eexists. exists c. repeat split. exact Hfaces.
Qed.

Lemma run_benign script : forall st c,
  cap st = Some c ->
  FRAME_SKIP cfg <> 0 ->
  Forall drawable (last_detected_faces st) ->
  Forall (benign getTextSize) script ->
  exists st' c', (run st script).2 = Running st' /\ cap st' = Some c'.
Proof.
  induction script as [|inp rest IH]; intros st c Hcap HN Hcache Hall.
  - exists st, c. split; [reflexivity|exact Hcap].
  - inversion Hall as [|? ? Hinp Hrest]; subst.
    destruct (step_benign st c inp Hcap HN Hcache Hinp) as (st1 & c1 & Hout & Hcap1 & Hcache1).
    destruct (step st inp) as [evs out] eqn:Hstep. simpl in Hout. subst out.
    destruct (run_cons_running cfg imencode getTextSize st inp rest evs st1 Hstep)
      as [_ ->].
    exact (IH st1 c1 Hcap1 HN Hcache1 Hrest).
Qed.

(** X7.  With the camera open, a skip interval other than zero, every
    reopen in the script successful and every Detection Set the model
    returns one the overlay can take and OpenCV can paint, the generator
    outlives the script: it made one iteration per entry, is still
    running and still has a camera. *)
Theorem stream_survives_benign_script c script :
  FRAME_SKIP cfg <> 0 ->
  Forall (benign getTextSize) script ->
  length (run (start c) script).1 = length script
  /\ exists st' c', (run (start c) script).2 = Running st' /\ cap st' = Some c'.
Proof.
  intros HN Hall.
  destruct (run_benign script (start c) c eq_refl HN (Forall_nil_2 _) Hall)
    as (st' & c' & Hout & Hcap).
  split; [|exists st', c'; split; assumption].
  pose proof (run_length script (start c)) as Hlen. rewrite Hout in Hlen. exact Hlen.
Qed.

(** ** The route and its parts *)

Lemma generate_frames_framed cap0 o script :
  let '(before, (logs, _)) := generate_frames cfg imencode getTextSize cap0 o script in
  framed imencode (before ++ concat logs).
Proof.
  assert (Hloop : forall st, framed imencode (concat (run st script).1)).
  { intros st. apply framed_concat, run_Forall. intros st' inp. apply step_framed. }
  assert (Hquiet : forall evs logs,
             rendered evs = [] -> yielded evs = [] ->
             framed imencode (concat logs) -> framed imencode (evs ++ concat logs)).
  { unfold framed. intros evs logs Hr Hy Hlogs.
    rewrite yielded_app, rendered_app, Hr, Hy. exact Hlogs. }
  unfold generate_frames. destruct cap0 as [c|].
  - specialize (Hloop (start c)). destruct (run (start c) script) as [logs out].
    exact Hloop.
  - destruct (quiet_initialize_camera cfg o) as (_ & Hr & Hy).
    destruct (initialize_camera cfg o) as [cap' evs]. simpl in Hr, Hy.
    destruct cap' as [c|].
    + specialize (Hloop (start c)). destruct (run (start c) script) as [logs out].
      apply (Hquiet (_ :: evs)); assumption.
    + apply (Hquiet (_ :: evs) []); [assumption..|reflexivity].
Qed.

(** X8.  The MIME type that [video_feed] declares names a boundary, and
    every part its generator yields opens with two dashes, that
    boundary and CRLF: the delimiter written on line 118 is the one
    promised on line 139. *)
Theorem parts_open_with_declared_boundary cap0 o script :
  let r := video_feed cfg imencode getTextSize cap0 o script in
  let '(before, (logs, _)) := response r in
  exists boundary,
    boundary_of (mimetype r) = Some boundary
    /\ Forall
         (fun part =>
            exists rest, part = list_byte_of_string ("--" +:+ boundary) ++ CRLF ++ rest)
         (yielded (before ++ concat logs)).
Proof.
  pose proof (generate_frames_framed cap0 o script) as Hframed.
  cbv zeta. unfold video_feed, response, mimetype.
  destruct (generate_frames cfg imencode getTextSize cap0 o script)
    as [before [logs out]].
  exists "frame". split; [reflexivity|].
  unfold framed in Hframed. rewrite Hframed.
  apply List.Forall_forall. intros part Hin. apply in_map_iff in Hin.
  destruct Hin as (jpeg & <- & _). eexists. reflexivity.
Qed.

(** ** Counting calls *)

Lemma budget_step n k :
  1 <= n ->
  inference_budget n (k + 1)
  = inference_budget n k + (if k mod n =? 0 then 1 else 0).
Proof.
  intros Hn. unfold inference_budget.
  pose proof (Z.div_mod k n ltac:(lia)) as Hk.
  pose proof (Z.mod_pos_bound k n ltac:(lia)) as Hr.
  destruct (k mod n =? 0) eqn:Hzero.
  - apply Z.eqb_eq in Hzero. rewrite Hzero in Hk.
    replace (k + 1 + n - 1) with (0 + (k / n + 1) * n) by lia.
    replace (k + n - 1) with ((n - 1) + (k / n) * n) by lia.
    rewrite !Z.div_add by lia.
    rewrite (Z.div_small 0 n), (Z.div_small (n - 1) n) by lia. lia.
  - apply Z.eqb_neq in Hzero.
    replace (k + 1 + n - 1) with (k mod n + (k / n + 1) * n) by lia.
    replace (k + n - 1) with ((k mod n - 1) + (k / n + 1) * n) by lia.
    rewrite !Z.div_add by lia.
    rewrite (Z.div_small (k mod n) n), (Z.div_small (k mod n - 1) n) by lia. lia.
Qed.

Lemma analyzed_not_got_frame st inp :
  got_frame (step st inp).1 = false -> analyzed (step st inp).1 = [].
Proof.
  pose proof (step_mirrored cfg imencode getTextSize st inp) as Hm.
  unfold mirrored in Hm. destruct (step st inp).1 as [|[] evs]; simpl; try tauto.
  destruct frame; [discriminate|tauto].
Qed.

Lemma run_budget script : forall st,
  1 <= FRAME_SKIP cfg ->
  Z.of_nat (length (analyzed (concat (run st script).1)))
  = inference_budget (FRAME_SKIP cfg)
      (frame_count st + Z.of_nat (length (processed (run st script).1)))
    - inference_budget (FRAME_SKIP cfg) (frame_count st).
Proof.
  induction script as [|inp rest IH]; intros st HN.
  - simpl. rewrite Z.add_0_r. lia.
  - rewrite run_cons.
    pose proof (step_counts cfg imencode getTextSize st inp ltac:(lia)) as Hstep.
    pose proof (analyzed_not_got_frame st inp) as Hquiet.
    destruct (step st inp) as [evs out]. simpl in Hquiet.
    assert (Hhere :
              Z.of_nat (length (analyzed evs))
              = inference_budget (FRAME_SKIP cfg)
                  (frame_count st + (if got_frame evs then 1 else 0))
                - inference_budget (FRAME_SKIP cfg) (frame_count st)
              /\ forall st', out = Running st' ->
                  frame_count st'
                  = frame_count st + (if got_frame evs then 1 else 0)).
    { destruct Hstep as [(raw & tl & -> & Han & Hfc)|[Hno Hfc]].
      - simpl. split; [|exact Hfc].
        change (analyzed (CapRead (Some raw) :: tl)) with (analyzed tl).
        rewrite Han, budget_step by lia.
        destruct (_ =? 0); simpl; lia.
      - rewrite Hno, (Hquiet Hno), Z.add_0_r. split; [simpl; lia|].
        intros st' Hout. rewrite (Hfc st' Hout). lia. }
    destruct Hhere as [Hhere Hfc].
    destruct out as [st1|e|].
    + specialize (IH st1 HN). specialize (Hfc st1 eq_refl).
      destruct (run st1 rest) as [logs out']. unfold processed in *. simpl in IH |- *.
      rewrite analyzed_app, length_app, Nat2Z.inj_add, IH, Hhere, Hfc.
      destruct (got_frame evs); simpl length; [|rewrite !Z.add_0_r; lia].
      rewrite Nat2Z.inj_succ.
      replace (frame_count st + Z.succ (Z.of_nat (length (List.filter got_frame logs))))
        with (frame_count st + 1 + Z.of_nat (length (List.filter got_frame logs)))
        by lia.
      lia.
    + simpl. rewrite app_nil_r, Hhere.
      unfold processed. cbn [List.filter].
      destruct (got_frame evs); cbn [length]; change (Z.of_nat 1) with 1;
        change (Z.of_nat 0) with 0; rewrite ?Z.add_0_r; reflexivity.
    + simpl. rewrite app_nil_r, Hhere.
      unfold processed. cbn [List.filter].
      destruct (got_frame evs); cbn [length]; change (Z.of_nat 1) with 1;
        change (Z.of_nat 0) with 0; rewrite ?Z.add_0_r; reflexivity.
Qed.

(** X9.  With a skip interval [N] of at least one, a generator that got
    [k] frames from the camera has called the model [k / N] times,
    rounded up, whatever else happened in the run. *)
Theorem inference_calls_are_budgeted c script :
  1 <= FRAME_SKIP cfg ->
  Z.of_nat (length (analyzed (concat (run (start c) script).1)))
  = inference_budget (FRAME_SKIP cfg)
      (Z.of_nat (length (processed (run (start c) script).1))).
Proof.
  intros HN. rewrite (run_budget script (start c) HN).
  change (frame_count (start c)) with 0. rewrite Z.add_0_l.
  assert (Hzero : inference_budget (FRAME_SKIP cfg) 0 = 0).
  { unfold inference_budget. apply Z.div_small. lia. }
  rewrite Hzero. lia.
Qed.

Lemma length_omap_le {A B : Type} (f : A -> option B) (l : list A) :
  (length (omap f l) <= length l)%nat.
Proof.
  induction l as [|a l IH]; csimpl; [lia|]. destruct (f a); csimpl; lia.
Qed.

Lemma step_at_most_one st inp :
  (length (yielded (step st inp).1) <= length (rendered (step st inp).1))%nat
  /\ (length (rendered (step st inp).1)
      <= if got_frame (step st inp).1 then 1 else 0)%nat.
Proof.
  pose proof (step_framed cfg imencode getTextSize st inp) as Hf.
  pose proof (step_mirrored cfg imencode getTextSize st inp) as Hm.
  unfold framed in Hf. split.
  - rewrite Hf, length_map. apply length_omap_le.
  - clear Hf. unfold loop_iteration in *.
    destruct (cap st) as [c|]; [|simpl; lia].
    destruct inp as [o|raw inf].
    + destruct (initialize_camera cfg o) as [cap' evs]. simpl in *.
      destruct Hm as [_ ->]. simpl. lia.
    + destruct (FRAME_SKIP cfg =? 0); [simpl; lia|].
      pose proof (rendered_throttle cfg (Flip (Captured raw) 1) st inf) as Hr.
      destruct (throttle cfg _ st inf) as [faces evs]. simpl in Hr.
      destruct (draw_overlay _ _ _) as [frame'|e]; simpl.
      * change (length (rendered (evs ++ emit imencode frame')) <= 1)%nat.
        rewrite rendered_app, Hr, rendered_emit. simpl. lia.
      * change (length (rendered evs) <= 1)%nat. rewrite Hr. simpl. lia.
Qed.

(** X10.  No iteration encodes or yields more than once, and none does
    without a frame from the camera: over any run there are no more
    parts yielded than frames encoded, and no more frames encoded than
    frames read. *)
Theorem at_most_one_part_per_frame st script :
  (length (yielded (concat (run st script).1))
   <= length (rendered (concat (run st script).1)))%nat
  /\ (length (rendered (concat (run st script).1))
      <= length (processed (run st script).1))%nat.
Proof.
  assert (Hall : Forall
            (fun evs =>
               (length (yielded evs) <= length (rendered evs))%nat
               /\ (length (rendered evs) <= if got_frame evs then 1 else 0)%nat)
            (run st script).1).
  { apply run_Forall. intros st' inp. apply step_at_most_one. }
  induction Hall as [|evs logs [Hy Hr] _ [IHy IHr]]; simpl; [lia|].
  rewrite yielded_app, rendered_app, !length_app. split; [lia|].
  destruct (got_frame evs); simpl; lia.
Qed.

(** ** A dropped read that the reopen repairs *)

Lemma step_same_locals st1 st2 inp :
  same_locals st1 st2 ->
  (step st1 inp).1 = (step st2 inp).1
  /\ same_outcome (step st1 inp).2 (step st2 inp).2.
Proof.
  intros (Hfc & Hcache & Hcap). unfold loop_iteration.
  destruct (cap st1) as [c1|] eqn:Hc1, (cap st2) as [c2|] eqn:Hc2.
  - destruct inp as [o|raw inf].
    + destruct (initialize_camera cfg o) as [cap' evs]. simpl.
      split; [reflexivity|]. repeat split; simpl; auto.
    + destruct (FRAME_SKIP cfg =? 0); [split; reflexivity|].
      unfold throttle. rewrite Hfc, Hcache.
      destruct (frame_count st2 mod FRAME_SKIP cfg =? 0);
        destruct (draw_overlay _ _ _); simpl;
        (split; [reflexivity|]); try reflexivity;
        repeat split; simpl; congruence.
  - destruct Hcap as [_ Hcap]. specialize (Hcap eq_refl). discriminate.
  - destruct Hcap as [Hcap _]. specialize (Hcap eq_refl). discriminate.
  - split; reflexivity.
Qed.

Lemma run_same_locals script : forall st1 st2,
  same_locals st1 st2 ->
  (run st1 script).1 = (run st2 script).1
  /\ same_outcome (run st1 script).2 (run st2 script).2.
Proof.
  induction script as [|inp rest IH]; intros st1 st2 Hsame.
  - split; [reflexivity|exact Hsame].
  - rewrite !run_cons.
    destruct (step_same_locals st1 st2 inp Hsame) as [Hevs Hout].
    destruct (step st1 inp) as [evs1 out1], (step st2 inp) as [evs2 out2].
    simpl in Hevs, Hout. subst evs2.
    destruct out1 as [st1'|e1|], out2 as [st2'|e2|]; simpl in Hout; try contradiction.
    + destruct (IH st1' st2' Hout) as [Hlogs Hfinal].
      destruct (run st1' rest) as [logs1 final1], (run st2' rest) as [logs2 final2].
      simpl in *. subst logs2. split; [reflexivity|exact Hfinal].
    + subst e2. split; reflexivity.
    + split; reflexivity.
Qed.

Lemma run_app pre : forall st post,
  run st (pre ++ post)
  = match (run st pre).2 with
    | Running st' => ((run st pre).1 ++ (run st' post).1, (run st' post).2)
    | _ => run st pre
    end.
Proof.
  induction pre as [|inp pre IH]; intros st post.
  - simpl. destruct (run st post). reflexivity.
  - change ((inp :: pre) ++ post) with (inp :: (pre ++ post)).
    rewrite !run_cons. destruct (step st inp) as [evs out].
    destruct out as [st1|e|]; [|reflexivity..].
    rewrite IH. destruct (run st1 pre) as [logs out1]. simpl.
    destruct out1; reflexivity.
Qed.

Lemma processed_app l1 l2 : processed (l1 ++ l2) = processed l1 ++ processed l2.
Proof. apply List.filter_app. Qed.

Lemma run_closed_camera st script :
  cap st = None -> processed (run st script).1 = [].
Proof.
  intros Hcap. destruct script as [|inp rest]; [reflexivity|].
  rewrite run_cons. unfold loop_iteration. rewrite Hcap. reflexivity.
Qed.

Lemma run_after_reopen st post :
  processed (run st (ReadFails Opened :: post)).1 = processed (run st post).1.
Proof.
  destruct (cap st) as [c|] eqn:Hcap.
  - rewrite run_cons. unfold loop_iteration at 1. rewrite Hcap. simpl.
    set (st1 := {| cap := Some (Capture (CAMERA_INDEX cfg));
                   frame_count := frame_count st;
                   last_detected_faces := last_detected_faces st |}).
    assert (Hsame : same_locals st1 st).
    { repeat split; simpl; try discriminate. rewrite Hcap. discriminate. }
    destruct (run_same_locals post st1 st Hsame) as [Hlogs _].
    destruct (run st1 post) as [logs out]. simpl in *. rewrite Hlogs. reflexivity.
  - rewrite !run_closed_camera by exact Hcap. reflexivity.
Qed.

Lemma yielded_not_got_frame st inp :
  got_frame (step st inp).1 = false -> yielded (step st inp).1 = [].
Proof.
  intros Hno. destruct (step_at_most_one st inp) as [Hy Hr].
  rewrite Hno in Hr. destruct (yielded (step st inp).1); [reflexivity|].
  simpl in Hy. lia.
Qed.

Lemma run_yields_processed st script :
  yielded (concat (run st script).1) = yielded (concat (processed (run st script).1)).
Proof.
  assert (Hall : Forall (fun evs => got_frame evs = false -> yielded evs = [])
                   (run st script).1).
  { apply run_Forall. intros st' inp. apply yielded_not_got_frame. }
  induction Hall as [|evs logs Hevs _ IH]; [reflexivity|].
  unfold processed in *. simpl. destruct (got_frame evs) eqn:Hgot; simpl.
  - rewrite !yielded_app, IH. reflexivity.
  - rewrite yielded_app, (Hevs eq_refl), IH. reflexivity.
Qed.

(** X11.  A read that fails and is followed by a successful reopen
    leaves no trace in the stream: with that entry taken out of the
    script, the iterations that get a frame make the same calls with
    the same results (the counter and the cached detections carry over
    the reopen), and the parts yielded are the same. *)
Theorem repaired_read_leaves_stream_unchanged st pre post :
  processed (run st (pre ++ ReadFails Opened :: post)).1
  = processed (run st (pre ++ post)).1
  /\ yielded (concat (run st (pre ++ ReadFails Opened :: post)).1)
     = yielded (concat (run st (pre ++ post)).1).
Proof.
  assert (Hprocessed :
            processed (run st (pre ++ ReadFails Opened :: post)).1
            = processed (run st (pre ++ post)).1).
  { rewrite !run_app. destruct (run st pre).2 as [st'|e|]; [|reflexivity..].
    cbn [fst]. rewrite !processed_app, run_after_reopen. reflexivity. }
  split; [exact Hprocessed|].
  rewrite !run_yields_processed, Hprocessed. reflexivity.
Qed.

(** ** A skip interval of zero *)

Lemma step_zero_skip st inp :
  FRAME_SKIP cfg = 0 ->
  analyzed (step st inp).1 = [] /\ rendered (step st inp).1 = []
  /\ yielded (step st inp).1 = []
  /\ (got_frame (step st inp).1 = true -> (step st inp).2 = Died ZeroDivisionError).
Proof.
  intros HN. unfold loop_iteration. rewrite HN. change (0 =? 0) with true.
  destruct (cap st) as [c|]; [|repeat split; discriminate].
  destruct inp as [o|raw inf]; [|repeat split].
  destruct (quiet_initialize_camera cfg o) as (Ha & Hr & Hy).
  destruct (initialize_camera cfg o) as [cap' evs]. simpl in *.
  change (analyzed (evs ++ [Sleep 1]) = [] /\ rendered (evs ++ [Sleep 1]) = []
          /\ yielded (evs ++ [Sleep 1]) = []
          /\ (false = true -> Running
                {| cap := cap'; frame_count := frame_count st;
                   last_detected_faces := last_detected_faces st |}
               = Died ZeroDivisionError)).
  rewrite analyzed_app, rendered_app, yielded_app, Ha, Hr, Hy.
  repeat split. discriminate.
Qed.

(** X12.  With [FRAME_SKIP] at zero no frame is ever analysed, encoded or
    yielded: failed reads are handled as usual, and the first frame the
    camera gives ends the generator with [ZeroDivisionError]. *)
Theorem zero_skip_ends_on_first_frame st script :
  FRAME_SKIP cfg = 0 ->
  analyzed (concat (run st script).1) = []
  /\ rendered (concat (run st script).1) = []
  /\ yielded (concat (run st script).1) = []
  /\ match processed (run st script).1 with
     | [] => True
     | [_] => (run st script).2 = Died ZeroDivisionError
     | _ => False
     end.
Proof.
  intros HN. revert st. induction script as [|inp rest IH]; intros st.
  - repeat split.
  - rewrite run_cons.
    destruct (step_zero_skip st inp HN) as (Ha & Hr & Hy & Hdie).
    destruct (step st inp) as [evs out]. simpl in Ha, Hr, Hy, Hdie.
    destruct out as [st1|e|].
    + destruct (got_frame evs) eqn:Hgot; [specialize (Hdie eq_refl); discriminate|].
      destruct (IH st1) as (IHa & IHr & IHy & IHp).
      destruct (run st1 rest) as [logs out']. unfold processed in *. simpl in *.
      rewrite analyzed_app, rendered_app, yielded_app, Ha, Hr, Hy, Hgot.
      repeat split; assumption.
    + unfold processed. simpl. rewrite !app_nil_r.
      repeat split; try assumption.
      destruct (got_frame evs); [exact (Hdie eq_refl)|exact I].
    + unfold processed. simpl. rewrite !app_nil_r.
      repeat split; try assumption.
      destruct (got_frame evs); [exact (Hdie eq_refl)|exact I].
Qed.

End StreamFacts.

(** ** Worked instances *)

Lemma happy_complete : complete happy.
Proof.
  exists {[ "x" := 10; "y" := 10; "w" := 50; "h" := 50 ]}, 10, 10, 50, 50, "happy".
  repeat split; try reflexivity. discriminate.
Qed.

Lemma no_height_not_drawable : ~ drawable no_height.
Proof.
  intros [Hlacks|[Hlacks|Hcomplete]]; try discriminate Hlacks.
  destruct Hcomplete as (region & x & y & w & h & emotion & Hr & _ & _ & _ & Hh & _).
  vm_compute in Hr. injection Hr as <-. vm_compute in Hh. discriminate.
Qed.

Example no_height_raises :
  draw_overlay toy_text_size (Flip (Captured 0) 1) [happy; no_height]
  = Raise (KeyError "h").
Proof. vm_compute. reflexivity. Qed.

Example zero_skip_run :
  run_loop zero_skip toy_imencode toy_text_size (start (Capture 1))
    [ReadFails Opened; ReadGives 0 (Detected [happy]); ReadGives 1 (Detected [])]
  = ([[CapRead None;
       Print "Error: Failed to grab frame. Re-initializing camera...";
       VideoCaptureCall 1; Print "Camera initialized successfully."; Sleep 1];
      [CapRead (Some 0%nat)]],
     Died ZeroDivisionError).
Proof. vm_compute. reflexivity. Qed.

Lemma overlay_succeeds_iff_drawable_witness :
  Forall (fun d => paintable toy_text_size d = true) [happy; no_region]
  /\ Forall (fun d => paintable toy_text_size d = true) [no_height]
  /\ Forall drawable [happy; no_region]
  /\ (exists img,
        draw_overlay toy_text_size (Flip (Captured 0) 1) [happy; no_region] = Ok img)
  /\ ~ (exists img,
          draw_overlay toy_text_size (Flip (Captured 0) 1) [no_height] = Ok img).
Proof.
  assert (Hp : Forall (fun d => paintable toy_text_size d = true) [happy; no_region]).
  { constructor; [vm_compute; reflexivity|].
    constructor; [vm_compute; reflexivity|constructor]. }
  assert (Hq : Forall (fun d => paintable toy_text_size d = true) [no_height]).
  { constructor; [vm_compute; reflexivity|constructor]. }
  assert (Hall : Forall drawable [happy; no_region]).
  { constructor; [|constructor; [|constructor]].
    - right. right. exact happy_complete.
    - left. reflexivity. }
  split; [exact Hp|]. split; [exact Hq|]. split; [exact Hall|]. split.
  - apply (proj2 (overlay_succeeds_iff_drawable toy_text_size
                    (Flip (Captured 0) 1) [happy; no_region] Hp)), Hall.
  - intros Hok.
    apply (proj1 (overlay_succeeds_iff_drawable toy_text_size
                    (Flip (Captured 0) 1) [no_height] Hq)) in Hok.
    inversion Hok as [|? ? Hd _]. exact (no_height_not_drawable Hd).
Defined.

Lemma malformed_region_ends_stream_witness :
  let st := start (Capture 1) in
  let region : gmap string Z := {[ "x" := 1; "y" := 2; "w" := 3 ]} in
  cap st = Some (Capture 1)
  /\ FRAME_SKIP script_config <> 0
  /\ frame_count st mod FRAME_SKIP script_config = 0
  /\ Forall (fun d => drawable d /\ paintable toy_text_size d = true) [happy]
  /\ no_height !! "region" = Some (PyDict region)
  /\ region <> ∅
  /\ first_missing region = Some "h"
  /\ truthy (dict_get no_height "dominant_emotion") = true
  /\ loop_iteration script_config toy_imencode toy_text_size st
       (ReadGives 0 (Detected ([happy] ++ no_height :: [])))
     = ([CapRead (Some 0%nat);
         Analyze (Flip (Captured 0) 1) (DETECTOR_BACKEND script_config)
           (Detected ([happy] ++ no_height :: []))],
        Died (KeyError "h")).
Proof.
  intros st region.
  assert (HN : FRAME_SKIP script_config <> 0) by (simpl; lia).
  assert (Hbefore : Forall (fun d => drawable d /\ paintable toy_text_size d = true)
                      [happy]).
  { constructor; [|constructor]. split; [|vm_compute; reflexivity].
    right. right. exact happy_complete. }
  assert (Hr : no_height !! "region" = Some (PyDict region)) by reflexivity.
  assert (Hne : region <> ∅).
  { intros Hempty. apply (f_equal (fun m : gmap string Z => m !! "x")) in Hempty.
    vm_compute in Hempty. discriminate. }
  assert (Hkey : first_missing region = Some "h") by (vm_compute; reflexivity).
  assert (Hlabel : truthy (dict_get no_height "dominant_emotion") = true)
    by (vm_compute; reflexivity).
  repeat (split; [first [reflexivity|assumption]|]).
  exact (malformed_region_ends_stream script_config toy_imencode toy_text_size
           st (Capture 1) 0%nat [happy] no_height [] region "h"
           eq_refl HN eq_refl Hbefore Hr Hne Hkey Hlabel).
Defined.

Lemma stream_survives_benign_script_witness :
  let script :=
    [ReadGives 0 (Detected [happy]); ReadFails Opened;
     ReadGives 1 (AnalyzeRaised "model failed")] in
  FRAME_SKIP every_other <> 0
  /\ Forall (benign toy_text_size) script
  /\ length (run_loop every_other toy_imencode toy_text_size (start (Capture 1)) script).1
     = length script
  /\ exists st' c',
       (run_loop every_other toy_imencode toy_text_size (start (Capture 1)) script).2
       = Running st'
       /\ cap st' = Some c'.
Proof.
  intros script.
  assert (HN : FRAME_SKIP every_other <> 0) by (simpl; lia).
  assert (Hall : Forall (benign toy_text_size) script).
  { constructor; [|constructor; [|constructor; [|constructor]]].
    - constructor; [|constructor]. split; [|vm_compute; reflexivity].
      right. right. exact happy_complete.
    - reflexivity.
    - exact I. }
  split; [exact HN|]. split; [exact Hall|].
  exact (stream_survives_benign_script every_other toy_imencode toy_text_size
           (Capture 1) script HN Hall).
Defined.

Lemma inference_calls_are_budgeted_witness :
  1 <= FRAME_SKIP every_other
  /\ Z.of_nat
       (length
          (analyzed
             (concat
                (run_loop every_other toy_imencode toy_text_size
                   (start (Capture 1)) demo_script).1)))
     = inference_budget (FRAME_SKIP every_other)
         (Z.of_nat
            (length
               (processed
                  (run_loop every_other toy_imencode toy_text_size
                     (start (Capture 1)) demo_script).1))).
Proof.
  split; [simpl; lia|].
  apply (inference_calls_are_budgeted every_other toy_imencode toy_text_size
           (Capture 1) demo_script).
  simpl; lia.
Defined.

Lemma zero_skip_ends_on_first_frame_witness :
  let script := [ReadFails Opened; ReadGives 0 (Detected [happy])] in
  let r := run_loop zero_skip toy_imencode toy_text_size (start (Capture 1)) script in
  FRAME_SKIP zero_skip = 0
  /\ analyzed (concat r.1) = []
  /\ rendered (concat r.1) = []
  /\ yielded (concat r.1) = []
  /\ match processed r.1 with
     | [] => True
     | [_] => r.2 = Died ZeroDivisionError
     | _ => False
     end.
Proof.
  intros script r. split; [reflexivity|].
  exact (zero_skip_ends_on_first_frame zero_skip toy_imencode toy_text_size
           (start (Capture 1)) script eq_refl).
Defined.
